(** * Flask-Loopback: the loopback handler of [flask_loopback/flask_loopback.py]

    A shallow embedding of the module's classes ([CustomHTTPResponse],
    [_IOReader], [FlaskLoopback], [_MockResponse]) and of its one module-level
    function ([_get_hostname]), followed by the properties proved about them.

    Python objects that are mutated in place (the handler's set of registered
    addresses, the table of the [dispatch] module, the state of the collaborators)
    are threaded explicitly; a raised exception is the [Raise] case of [result],
    and a computation that raises still hands back the state it reached. *)

From Stdlib Require Import Ascii String.
From stdpp Require Import gmap strings list fin_maps.

(** ** Python values that occur as addresses *)

(** The hashable scalars a [(host, port)] pair is made of. *)
Inductive atom :=
| AStr (s : string)
| AInt (n : Z).

(** What callers may pass as [address]: a tuple of scalars of any length, or a
    bare scalar.  [activate_address] and [deactivate_address] assert the shape. *)
Inductive pyval :=
| VTuple (items : list atom)
| VAtom (a : atom).

#[global] Instance atom_eq_dec : EqDecision atom.
Proof. solve_decision. Defined.

#[global] Instance pyval_eq_dec : EqDecision pyval.
Proof. solve_decision. Defined.

#[global] Instance atom_countable : Countable atom.
Proof.
  refine (inj_countable'
            (fun a => match a with AStr s => inl s | AInt n => inr n end)
            (fun x => match x with inl s => AStr s | inr n => AInt n end) _).
  by intros [].
Defined.

#[global] Instance pyval_countable : Countable pyval.
Proof.
  refine (inj_countable'
            (fun v => match v with VTuple l => inl l | VAtom a => inr a end)
            (fun x => match x with inl l => VTuple l | inr a => VAtom a end) _).
  by intros [].
Defined.

(** [isinstance(address, tuple) and len(address) == 2] *)
Definition is_address (address : pyval) : bool :=
  match address with
  | VTuple [_; _] => true
  | _ => false
  end.

(** ** Bytes and strings *)

Definition bytes := list Byte.byte.

(** [b == six.b('')] *)
Definition bytes_is_empty (b : bytes) : bool :=
  match b with
  | [] => true
  | _ :: _ => false
  end.

(** [str.split(sep, maxsplit)] for a one-character separator: at most
    [maxsplit] cuts, from the left; the result is never empty. *)
Fixpoint str_split (sep : ascii) (maxsplit : nat) (s : string) : list string :=
  match s with
  | EmptyString => [EmptyString]
  | String c rest =>
      match maxsplit with
      | O => [s]
      | S m =>
          if Ascii.eqb c sep then EmptyString :: str_split sep m rest
          else match str_split sep maxsplit rest with
               | piece :: pieces => String c piece :: pieces
               | [] => [String c EmptyString]
               end
      end
  end.

(** [str.upper()] on the ASCII letters. *)
Definition ascii_upper (c : ascii) : ascii :=
  let n := nat_of_ascii c in
  if (97 <=? n)%nat && (n <=? 122)%nat then ascii_of_nat (n - 32) else c.

Fixpoint str_upper (s : string) : string :=
  match s with
  | EmptyString => EmptyString
  | String c rest => String (ascii_upper c) (str_upper rest)
  end.

Fixpoint str_lower (s : string) : string :=
  match s with
  | EmptyString => EmptyString
  | String c rest =>
      let n := nat_of_ascii c in
      String (if (65 <=? n)%nat && (n <=? 90)%nat then ascii_of_nat (n + 32) else c)
             (str_lower rest)
  end.

(** [c in s] for a character [c]. *)
Fixpoint str_contains (c : ascii) (s : string) : bool :=
  match s with
  | EmptyString => false
  | String c' rest => Ascii.eqb c' c || str_contains c rest
  end.

(** ** Requests and responses of the [requests] library *)

Definition headers := list (string * string).

(** [request.body]: absent, a byte string, or an object with a [read] method
    (whose [read()] yields [content]). *)
Inductive body :=
| BodyNone
| BodyBytes (b : bytes)
| BodyReadable (content : bytes).

Record Request := mkRequest {
  req_method : string;
  req_url : string;
  req_headers : headers;
  req_body : body
}.

(** The [url] argument of [handle_request]: a string that also exposes the
    parsed [scheme] and [netloc]. *)
Record URL := mkURL {
  url_str : string;
  url_scheme : string;
  url_netloc : string
}.

(** The state of an [_IOReader]: the buffer, the read position, the closed flag. *)
Record IOReader := mkIOReader {
  io_buf : bytes;
  io_pos : nat;
  io_closed : bool
}.

(** [urllib3.HTTPResponse] as constructed by [handle_request]. *)
Record HTTPResponse := mkHTTPResponse {
  hr_status : option Z;
  hr_reason : option string;
  hr_headers : headers;
  hr_body : option IOReader;
  hr_decode_content : bool;
  hr_preload_content : bool
}.

(** The cookie jar of [requests]: the cookies it holds, as name and value. *)
Definition CookieJar := list (string * string).

Record Response := mkResponse {
  response_url : option string;
  response_status_code : option Z;
  response_reason : option string;
  response_request : option Request;
  response__content : option bytes;
  response_headers : headers;
  response_raw : option HTTPResponse;
  response_cookies : CookieJar
}.

(** ** Exceptions *)

Inductive exn :=
| AssertionError (msg : string)
| KeyError (key : pyval)
| IndexError
| ValueError (msg : string)
| OverflowError (msg : string)
| AttributeError (msg : string)
| CustomHTTPResponse (response : Response)
| OtherError (name : string).

Inductive result (A : Type) :=
| Ok (a : A)
| Raise (e : exn).
#[global] Arguments Ok {A} a.
#[global] Arguments Raise {A} e.

(** A Python statement sequence over a mutable state [S]. *)
Definition M (S A : Type) := S -> result A * S.

Definition ret {S A} (a : A) : M S A := fun s => (Ok a, s).
Definition raise {S A} (e : exn) : M S A := fun s => (Raise e, s).
Definition bind {S A B} (m : M S A) (k : A -> M S B) : M S B :=
  fun s => match m s with
           | (Ok a, s') => k a s'
           | (Raise e, s') => (Raise e, s')
           end.
Definition get {S} : M S S := fun s => (Ok s, s).
Definition modify {S} (f : S -> S) : M S unit := fun s => (Ok tt, f s).

(** [try: body finally: cleanup] *)
Definition try_finally {S A} (body : M S A) (cleanup : M S unit) : M S A :=
  fun s => match body s with
           | (r, s') => match cleanup s' with
                        | (Ok _, s'') => (r, s'')
                        | (Raise e, s'') => (Raise e, s'')
                        end
           end.

(** [assert cond, msg] *)
Definition py_assert {S} (cond : bool) (msg : string) : M S unit :=
  if cond then ret tt else raise (AssertionError msg).

Notation "'let!' x ':=' m 'in' k" := (bind m (fun x => k))
  (at level 10, x name, m at level 100, k at level 200).
Notation "m ;; k" := (bind m (fun _ => k))
  (at level 100, k at level 200, right associativity).

(** ** [class CustomHTTPResponse(Exception)] *)

(** [requests.Response()]: every attribute at its initial value. *)
Definition new_Response : Response :=
  {| response_url := None; response_status_code := None;
     response_reason := None; response_request := None;
     response__content := None; response_headers := [];
     response_raw := None; response_cookies := [] |}.

Section CustomResponse.

(** [httplib.responses], the standard table from status code to phrase. *)
Variable responses : gmap Z string.

(** [CustomHTTPResponse.__init__(self, request, code)]: the response the
    exception carries. *)
Definition CustomHTTPResponse_init (request : Request) (code : Z) : Response :=
  let response := new_Response in
  {| response_url := Some (req_url request);
     response_status_code := Some code;
     response_reason := responses !! code;
     response_request := Some request;
     response__content := response__content response;
     response_headers := response_headers response;
     response_raw := response_raw response;
     response_cookies := response_cookies response |}.

End CustomResponse.

(** ** [class _IOReader(six.BytesIO)] *)

(** [_IOReader(data)]: an open reader positioned at the start. *)
Definition new_IOReader (data : bytes) : IOReader :=
  {| io_buf := data; io_pos := 0; io_closed := false |}.

(** The bounds of [Py_ssize_t]: [sys.maxsize] and [-sys.maxsize - 1] of a
    64-bit build. *)
Definition PY_SSIZE_T_MAX : Z := 2 ^ 63 - 1.
Definition PY_SSIZE_T_MIN : Z := - PY_SSIZE_T_MAX - 1.

(** Whether a [size] argument converts to a [Py_ssize_t]: [None] does, an
    integer does when it lies within the bounds. *)
Definition fits_ssize_t (size : option Z) : bool :=
  match size with
  | None => true
  | Some z => (PY_SSIZE_T_MIN <=? z)%Z && (z <=? PY_SSIZE_T_MAX)%Z
  end.

(** [BytesIO.read(size)]: the argument is converted first, and a size that
    does not fit a [Py_ssize_t] raises [OverflowError]; then a closed reader
    raises [ValueError]; [None] or a negative size reads to the end. *)
Definition BytesIO_read (size : option Z) : M IOReader bytes :=
  fun r =>
    if negb (fits_ssize_t size)
    then (Raise (OverflowError "cannot fit 'int' into an index-sized integer"), r)
    else if io_closed r then (Raise (ValueError "I/O operation on closed file."), r)
    else
      let avail := drop (io_pos r) (io_buf r) in
      let n := match size with
               | None => length avail
               | Some z => if (z <? 0)%Z then length avail
                           else Nat.min (Z.to_nat z) (length avail)
               end in
      (Ok (take n avail),
       {| io_buf := io_buf r; io_pos := io_pos r + n; io_closed := io_closed r |}).

(** [BytesIO.close()] *)
Definition IOReader_close : M IOReader unit :=
  modify (fun r => {| io_buf := io_buf r; io_pos := io_pos r; io_closed := true |}).

(** [_IOReader.read(self, *args, **kwargs)] *)
Definition IOReader_read (size : option Z) : M IOReader bytes :=
  let! self := get in
  if io_closed self then ret []
  else
    let! result := BytesIO_read size in
    (if bytes_is_empty result then IOReader_close else ret tt) ;;
    ret result.

(** Truth value of an [_IOReader] object: [BytesIO] defines neither [__bool__]
    nor [__len__], so every instance is true. *)
Definition IOReader_truthy (r : IOReader) : bool := true.

(** [a or b] *)
Definition py_or {A} (truthy : A -> bool) (a b : A) : A :=
  if truthy a then a else b.

(** ** The [dispatch] module, as [FlaskLoopback] uses it *)

(** The identity of a [FlaskLoopback] object, which [dispatch] stores. *)
Definition handler_ref := nat.

(** The two functions of [dispatch] that [FlaskLoopback] calls, over the
    module's own state; either may raise. *)
Class Dispatch := {
  registry : Type;
  register_loopback_handler : pyval -> handler_ref -> bool -> M registry unit;
  unregister_loopback_handler : pyval -> M registry unit
}.

(** [next(iter(s))] on a set: which element comes first is up to the hash
    table, so only membership is known. *)
Class SetIter := {
  set_first : gset pyval -> option pyval;
  set_first_elem : forall s a, set_first s = Some a -> a ∈ s;
  set_first_empty : forall s, set_first s = None -> s = ∅
}.

(** Modelled from the spec: the [dispatch] module is not among the sources.
    What its unregistration does with an address that is not registered is
    left open ("fails with NotRegistered if address is not currently active
    (or is a no-op, per policy choice)"), so both policies are modelled. *)
Inductive unregister_policy :=
| NotRegisteredRaises
| NotRegisteredIgnored.

(** Modelled from the spec: [dispatch.register_loopback_handler], missing from
    the sources.  The module keeps a process-wide table from address to
    handler and [ssl] flag; registration "registers address -> handler
    globally", and "activating an already-active address ... overwrites". *)
Definition spec_register (address : pyval) (handler : handler_ref) (ssl : bool)
  : M (gmap pyval (handler_ref * bool)) unit :=
  modify (fun table => <[address := (handler, ssl)]> table).

(** Modelled from the spec: [dispatch.unregister_loopback_handler], missing
    from the sources.  It "removes the global registration"; on an address
    that is not registered it raises or does nothing, as [policy] says. *)
Definition spec_unregister (policy : unregister_policy) (address : pyval)
  : M (gmap pyval (handler_ref * bool)) unit :=
  fun table =>
    match table !! address, policy with
    | None, NotRegisteredRaises => (Raise (KeyError address), table)
    | _, _ => (Ok tt, delete address table)
    end.

(** Modelled from the spec: the [dispatch] module with its table as state. *)
Definition spec_dispatch (policy : unregister_policy) : Dispatch :=
  {| registry := gmap pyval (handler_ref * bool);
     register_loopback_handler := spec_register;
     unregister_loopback_handler := spec_unregister policy |}.

(** Iteration in the order of stdpp's [elements]. *)
Lemma head_elements_elem (s : gset pyval) (a : pyval) :
  head (elements s) = Some a -> a ∈ s.
Proof.
  intros H. apply elem_of_elements.
  destruct (elements s) as [|x l]; cbn in H; [discriminate|].
  injection H as ->. apply list_elem_of_here.
Qed.

Lemma head_elements_empty (s : gset pyval) :
  head (elements s) = None -> s = ∅.
Proof.
  intros H. apply leibniz_equiv, elements_empty_inv.
  destruct (elements s); cbn in H; [reflexivity | discriminate].
Qed.

Definition elements_iter : SetIter :=
  {| set_first := fun s => head (elements s);
     set_first_elem := head_elements_elem;
     set_first_empty := head_elements_empty |}.

(** ** The collaborators of [handle_request] *)

(** The keyword arguments [handle_request] passes to the test client's [open]. *)
Record open_kwargs := mkOpenKwargs {
  kw_method : string;
  kw_headers : headers;
  kw_data : option bytes;
  kw_remote_addr : string;
  kw_base_url : string
}.

(** What the test client's [open] returns, as far as [handle_request] reads it:
    [status_code], [headers] and [get_data()]. *)
Record AppResponse := mkAppResponse {
  app_status_code : Z;
  app_headers : headers;
  app_data : bytes
}.

(** [resp.headers.get(name)]: the first value whose name matches, whatever the
    case. *)
Fixpoint headers_get (name : string) (h : headers) : option string :=
  match h with
  | [] => None
  | (k, v) :: rest =>
      if String.eqb (str_lower k) (str_lower name) then Some v
      else headers_get name rest
  end.

(** [returned.headers[k] = v] on a case-insensitive dictionary: an entry with
    the same name (whatever the case) is replaced in place. *)
Fixpoint headers_set (k v : string) (h : headers) : headers :=
  match h with
  | [] => [(k, v)]
  | (k', v') :: rest =>
      if String.eqb (str_lower k') (str_lower k) then (k, v) :: rest
      else (k', v') :: headers_set k v rest
  end.

(** [returned.headers.update(items)] *)
Definition headers_update (items : headers) (h : headers) : headers :=
  fold_left (fun acc kv => headers_set kv.1 kv.2 acc) items h.

(** ** [class _MockResponse] *)

Record _MockResponse := mkMockResponse { _resp : AppResponse }.

(** [_MockResponse.info(self)] *)
Definition info (self : _MockResponse) : _MockResponse := self.

(** [_MockResponse.getheaders(self, name)] *)
Definition getheaders (self : _MockResponse) (name : string) : list string :=
  match headers_get (str_lower name) (app_headers (_resp self)) with
  | Some returned => [returned]
  | None => []
  end.

(** [_MockResponse.get_all(self, name, default=None)] *)
Definition get_all (self : _MockResponse) (name : string)
    (default : option (list string)) : option (list string) :=
  match getheaders self name with
  | [] => default
  | found => Some found
  end.

(** What a run of [handle_request] did to its collaborators, in order: the
    scope of intercept handler number [i] was entered (and pushed on the
    [ExitStack]), that scope's [__exit__] was called, the test client's [open]
    was called.  The trace is ghost state: nothing in the code reads it. *)
Inductive event :=
| Entered (i : nat)
| Exited (i : nat)
| Opened (path : string) (kwargs : open_kwargs).

(** ["/{0}".format(url.split("/", 3)[-1])] *)
Definition application_path (url : string) : result string :=
  match last (str_split "/" 3 url) with
  | Some tail => Ok ("/" +:+ tail)
  | None => Raise IndexError
  end.

Section FlaskLoopback.

(** The state that intercept handlers and the application act on. *)
Context {Σ : Type}.
Context `{D : Dispatch} `{I : SetIter}.

(** An entered context manager: its [__exit__], called with the exception in
    flight (if any); it returns its truth value or raises. *)
Record scope := mkScope {
  scope_exit : option exn -> M Σ bool
}.

(** An intercept handler: [handler(request)] followed by [__enter__] of what it
    returned.  It yields the entered scope or raises. *)
Definition handler := Request -> M Σ scope.

Record FlaskLoopback := mkFlaskLoopback {
  self_ref : handler_ref;
  _test_client : string -> open_kwargs -> M Σ AppResponse;
  _request_context_handlers : list handler;
  _registered_addresses : gset pyval;
  _use_ssl : gmap pyval bool
}.

(** [FlaskLoopback.__init__(self, flask_app)]; [ref] is the new object's
    identity and [client] is [flask_app.test_client(use_cookies=False)]. *)
Definition FlaskLoopback_init (ref : handler_ref)
    (client : string -> open_kwargs -> M Σ AppResponse) : FlaskLoopback :=
  {| self_ref := ref;
     _test_client := client;
     _request_context_handlers := [];
     _registered_addresses := ∅;
     _use_ssl := ∅ |}.

Definition set_registered_addresses (f : gset pyval -> gset pyval)
    (self : FlaskLoopback) : FlaskLoopback :=
  {| self_ref := self_ref self;
     _test_client := _test_client self;
     _request_context_handlers := _request_context_handlers self;
     _registered_addresses := f (_registered_addresses self);
     _use_ssl := _use_ssl self |}.

(** [register_request_context_handler(self, handler)] *)
Definition register_request_context_handler (h : handler)
    (self : FlaskLoopback) : FlaskLoopback :=
  {| self_ref := self_ref self;
     _test_client := _test_client self;
     _request_context_handlers := _request_context_handlers self ++ [h];
     _registered_addresses := _registered_addresses self;
     _use_ssl := _use_ssl self |}.

(** *** Activation

    The methods below act on the state of the [dispatch] module and on the
    handler object itself. *)
Definition process : Type := registry * FlaskLoopback.

Definition in_dispatch {A} (m : M registry A) : M process A :=
  fun st => match m st.1 with
            | (r, reg') => (r, (reg', st.2))
            end.

(** [self._registered_addresses.add(address)] *)
Definition addresses_add (address : pyval) : M process unit :=
  modify (fun st => (st.1, set_registered_addresses (fun s => {[address]} ∪ s) st.2)).

(** [self._registered_addresses.remove(address)]: [KeyError] when absent. *)
Definition addresses_remove (address : pyval) : M process unit :=
  let! st := get in
  if decide (address ∈ _registered_addresses st.2)
  then modify (fun st =>
                 (st.1, set_registered_addresses (fun s => s ∖ {[address]}) st.2))
  else raise (KeyError address).

Definition address_msg : string := "Address must be a tuple of the form (host, port)".

(** [activate_address(self, address, ssl=False)] *)
Definition activate_address (address : pyval) (ssl : bool) : M process unit :=
  py_assert (is_address address) address_msg ;;
  let! st := get in
  in_dispatch (register_loopback_handler address (self_ref st.2) ssl) ;;
  addresses_add address.

(** [deactivate_address(self, address)] *)
Definition deactivate_address (address : pyval) : M process unit :=
  py_assert (is_address address) address_msg ;;
  in_dispatch (unregister_loopback_handler address) ;;
  addresses_remove address.

(** [on(self, address, ssl=False)], a [@contextmanager]; [scope_body] is the
    body of the [with] statement it guards. *)
Definition on {A} (address : pyval) (ssl : bool) (scope_body : M process A)
  : M process A :=
  activate_address address ssl ;;
  try_finally scope_body (deactivate_address address).

(** [deactivate_all(self)]: the [while] loop, cut off after [fuel] tests of its
    condition ([None] when the fuel runs out first). *)
Fixpoint deactivate_all_loop (fuel : nat) (st : process)
  : option (result unit * process) :=
  match fuel with
  | O => None
  | S fuel' =>
      match set_first (_registered_addresses st.2) with
      | None => Some (Ok tt, st)
      | Some address =>
          match deactivate_address address st with
          | (Ok _, st') => deactivate_all_loop fuel' st'
          | (Raise e, st') => Some (Raise e, st')
          end
      end
  end.

(** Each turn of the loop that does not raise removes one address, so one test
    more than there are addresses is enough. *)
Definition deactivate_all (st : process) : option (result unit * process) :=
  deactivate_all_loop (S (size (_registered_addresses st.2))) st.

(** *** Dispatch of one request *)

(** [httplib.responses], the standard table from status code to phrase. *)
Variable responses : gmap Z string.
(** [gzip_decompress] of [_compat]; it raises on data that is not gzip. *)
Variable gzip_decompress : bytes -> result bytes.
(** [socket.getfqdn()] *)
Variable getfqdn : string.
(** [jar.extract_cookies(mocked_response, mocked_request)] of the cookie jar:
    it reads the response through [info().get_all]. *)
Variable cookiejar_extract :
  (string -> option (list string) -> option (list string)) ->
  Request -> CookieJar -> CookieJar.

(** The state one dispatch runs in: the collaborators' own state, the ghost
    trace, the module-level [_hostname] cache and the cookie jar of the
    [session] argument. *)
Record world := mkWorld {
  collab : Σ;
  trace : list event;
  _hostname : option string;
  session_cookies : CookieJar
}.

Definition in_collab {A} (m : M Σ A) : M world A :=
  fun w => match m (collab w) with
           | (r, σ) => (r, {| collab := σ; trace := trace w;
                              _hostname := _hostname w;
                              session_cookies := session_cookies w |})
           end.

Definition log (ev : event) : M world unit :=
  modify (fun w => {| collab := collab w; trace := trace w ++ [ev];
                      _hostname := _hostname w;
                      session_cookies := session_cookies w |}).

Definition lift_result {S A} (r : result A) : M S A := fun s => (r, s).

(** [_get_hostname()] *)
Definition _get_hostname : M world string :=
  let! w := get in
  match _hostname w with
  | None =>
      modify (fun w => {| collab := collab w; trace := trace w;
                          _hostname := Some getfqdn;
                          session_cookies := session_cookies w |}) ;;
      ret getfqdn
  | Some name => ret name
  end.

(** [_extract_cookies(self, session, request, raw_response, response)]: the
    same extraction on the response's jar and on the session's. *)
Definition _extract_cookies (request : Request) (raw_response : AppResponse)
    (response : Response) : M world Response :=
  let mocked_response := mkMockResponse raw_response in
  let extract := cookiejar_extract (get_all (info mocked_response)) request in
  modify (fun w => {| collab := collab w; trace := trace w;
                      _hostname := _hostname w;
                      session_cookies := extract (session_cookies w) |}) ;;
  ret {| response_url := response_url response;
         response_status_code := response_status_code response;
         response_reason := response_reason response;
         response_request := response_request response;
         response__content := response__content response;
         response_headers := response_headers response;
         response_raw := response_raw response;
         response_cookies := extract (response_cookies response) |}.

(** **** [contextlib.ExitStack] *)

(** The registered [__exit__] callbacks, most recently pushed first, each
    with the number of the handler it belongs to. *)
Definition exit_stack : Type := list (nat * scope).

(** The local variables of [ExitStack.__exit__]. *)
Record unwinding := mkUnwinding {
  exc_details : option exn;
  suppressed_exc : bool;
  pending_raise : bool
}.

(** The [while self._exit_callbacks] loop of [ExitStack.__exit__]: every
    callback is popped and called once; a true result swallows the exception in
    flight, a raise replaces it. *)
Fixpoint run_exit_callbacks (stack : exit_stack) (u : unwinding) (w : world)
  : unwinding * world :=
  match stack with
  | [] => (u, w)
  | (i, cb) :: stack' =>
      match (log (Exited i) ;; in_collab (scope_exit cb (exc_details u))) w with
      | (Ok true, w') =>
          run_exit_callbacks stack'
            {| exc_details := None; suppressed_exc := true;
               pending_raise := false |} w'
      | (Ok false, w') => run_exit_callbacks stack' u w'
      | (Raise new_exc, w') =>
          run_exit_callbacks stack'
            {| exc_details := Some new_exc; suppressed_exc := suppressed_exc u;
               pending_raise := true |} w'
      end
  end.

(** [with ExitStack() as stack: body], for a body that ends in a [return] or
    raises and hands back the callbacks it pushed.  When the callbacks
    swallow the body's exception, control leaves the [with] statement
    normally and the enclosing function returns [None]. *)
Definition with_ExitStack {A}
    (body : world -> (result A * exit_stack) * world) : M world (option A) :=
  fun w =>
    match body w with
    | ((outcome, stack), w1) =>
        let received := match outcome with Ok _ => None | Raise e => Some e end in
        match run_exit_callbacks stack
                {| exc_details := received; suppressed_exc := false;
                   pending_raise := false |} w1 with
        | (u, w2) =>
            if pending_raise u then
              match exc_details u with
              | Some e => (Raise e, w2)
              | None => (Raise (AttributeError "__context__"), w2)
              end
            else
              match outcome with
              | Ok returned => (Ok (Some returned), w2)
              | Raise e =>
                  if suppressed_exc u then (Ok None, w2) else (Raise e, w2)
              end
        end
    end.

(** The [for handler in self._request_context_handlers] loop: [Ok None] when
    every handler was entered, [Ok (Some response)] for [return e.response]. *)
Fixpoint enter_contexts (i : nat) (handlers : list handler) (request : Request)
    (stack : exit_stack) (w : world)
  : (result (option Response) * exit_stack) * world :=
  match handlers with
  | [] => ((Ok None, stack), w)
  | h :: handlers' =>
      match in_collab (h request) w with
      | (Ok cm, w') =>
          match log (Entered i) w' with
          | (_, w'') => enter_contexts (S i) handlers' request ((i, cm) :: stack) w''
          end
      | (Raise (CustomHTTPResponse response), w') => ((Ok (Some response), stack), w')
      | (Raise e, w') => ((Raise e, stack), w')
      end
  end.

(** **** [handle_request] *)

(** [request.body], read to the end when it has a [read] method. *)
Definition request_data_of (request : Request) : option bytes :=
  match req_body request with
  | BodyNone => None
  | BodyBytes b => Some b
  | BodyReadable content => Some content
  end.

(** The dictionary [open_kwargs]. *)
Definition build_open_kwargs (url : URL) (request : Request) : M world open_kwargs :=
  let request_data := request_data_of request in
  let! hostname := _get_hostname in
  ret {| kw_method := str_upper (req_method request);
         kw_headers := req_headers request;
         kw_data := request_data;
         kw_remote_addr := hostname;
         kw_base_url := url_scheme url +:+ "://" +:+ url_netloc url |}.

(** Lines 104 to 125: the call of the application and the translation of its
    response. *)
Definition open_and_translate (self : FlaskLoopback) (url : URL)
    (request : Request) (path : string) (kwargs : open_kwargs) : M world Response :=
  log (Opened path kwargs) ;;
  let! resp := in_collab (_test_client self path kwargs) in
  let returned := new_Response in
  py_assert (bool_decide (response_url returned = None)) "" ;;
  let status := app_status_code resp in
  let reason := responses !! status in
  let resp_data := app_data resp in
  let! resp_data :=
    (if bool_decide (headers_get "content-encoding" (app_headers resp) = Some "gzip")
     then lift_result (gzip_decompress resp_data)
     else ret resp_data) in
  let hdrs := headers_update (app_headers resp) (response_headers returned) in
  _extract_cookies request resp
    {| response_url := Some (url_str url);
       response_status_code := Some status;
       response_reason := reason;
       response_request := Some request;
       response__content := Some resp_data;
       response_headers := hdrs;
       response_raw :=
         Some {| hr_status := Some status;
                 hr_reason := reason;
                 hr_headers := hdrs;
                 hr_body := Some (py_or IOReader_truthy (new_IOReader resp_data)
                                                        (new_IOReader []));
                 hr_decode_content := false;
                 hr_preload_content := false |};
       response_cookies := response_cookies returned |}.

(** The body of the [with ExitStack() as stack] statement: the handler loop,
    then the application; it hands back what it returns or raises together
    with the callbacks pushed so far. *)
Definition with_body (self : FlaskLoopback) (url : URL) (request : Request)
    (path : string) (kwargs : open_kwargs) (w : world)
  : (result Response * exit_stack) * world :=
  match enter_contexts 0 (_request_context_handlers self) request [] w with
  | ((Ok None, stack), w1) =>
      match open_and_translate self url request path kwargs w1 with
      | (r, w2) => ((r, stack), w2)
      end
  | ((Ok (Some response), stack), w1) => ((Ok response, stack), w1)
  | ((Raise e, stack), w1) => ((Raise e, stack), w1)
  end.

(** [handle_request(self, session, url, request)]; the [session] argument is
    the [session_cookies] component of the state.  The result is [None] only
    when an [__exit__] swallowed an exception. *)
Definition handle_request (self : FlaskLoopback) (url : URL) (request : Request)
  : M world (option Response) :=
  py_assert (negb (String.eqb (url_scheme url) "")) "" ;;
  let! path := lift_result (application_path (url_str url)) in
  let! kwargs := build_open_kwargs url request in
  with_ExitStack (with_body self url request path kwargs).

End FlaskLoopback.

(** The handler's set of registered addresses in a state of the process. *)
Abbreviation addresses st := (_registered_addresses (snd st)).

(** What a scope or a handler does at every state it may be run in. *)
Section Behaviours.

Context {Σ : Type}.

(** The scope's [__exit__] returns false, whatever is in flight. *)
Definition transparent (cm : @scope Σ) : Prop :=
  forall exc σ, exists σ', scope_exit cm exc σ = (Ok false, σ').

(** The scope's [__exit__] does not raise when nothing is in flight. *)
Definition exits_quietly (cm : @scope Σ) : Prop :=
  forall σ, exists b σ', scope_exit cm None σ = (Ok b, σ').

(** For [request], the handler is entered without raising, into a scope
    satisfying [P]. *)
Definition enters_with (P : @scope Σ -> Prop) (request : Request)
    (h : handler) : Prop :=
  forall σ, exists cm σ', h request σ = (Ok cm, σ') /\ P cm.

(** The handler raises [CustomHTTPResponse] with [response] for [request]. *)
Definition short_circuits (h : @handler Σ) (request : Request)
    (response : Response) : Prop :=
  forall σ, exists σ', h request σ = (Raise (CustomHTTPResponse response), σ').

(** The test client's [open] returns [resp]. *)
Definition answers (client : string -> open_kwargs -> M Σ AppResponse)
    (resp : AppResponse) : Prop :=
  forall path kwargs σ, exists σ', client path kwargs σ = (Ok resp, σ').

(** [resp.headers.get('content-encoding') == 'gzip'] *)
Definition declares_gzip (resp : AppResponse) : Prop :=
  headers_get "content-encoding" (app_headers resp) = Some "gzip".

(** The test client's [open] raises [e]. *)
Definition fails_with (client : string -> open_kwargs -> M Σ AppResponse)
    (e : exn) : Prop :=
  forall path kwargs σ, exists σ', client path kwargs σ = (Raise e, σ').

End Behaviours.

(** ** Activation against the table modelled from the spec *)

Section SpecProcess.

Context {Σ : Type} {policy : unregister_policy}.

(** The table of [dispatch] in a state of the process. *)
Definition table (st : @process Σ (spec_dispatch policy))
  : gmap pyval (handler_ref * bool) := st.1.

(** Every address the handler holds is well formed and is in the table. *)
Definition well_registered (st : @process Σ (spec_dispatch policy)) : Prop :=
  forall a, a ∈ addresses st -> is_address a = true /\ is_Some (table st !! a).

(** [activate_address] on each address in turn. *)
Fixpoint activate_each (l : list pyval) (ssl : bool)
  : M (@process Σ (spec_dispatch policy)) unit :=
  match l with
  | [] => ret tt
  | address :: l' => (activate_address address ssl ;; activate_each l' ssl)
  end.

End SpecProcess.

(** ** Worked instances *)

(** Two entries of [httplib.responses]. *)
Definition demo_responses : gmap Z string :=
  {[ 200%Z := "OK"; 403%Z := "Forbidden" ]}.

(** A stand-in codec for the instances below: a compressed body is its
    payload behind the two magic bytes of gzip. *)
Definition demo_gzip_decompress (b : bytes) : result bytes :=
  match b with
  | Byte.x1f :: Byte.x8b :: payload => Ok payload
  | _ => Raise (OtherError "BadGzipFile")
  end.

(** A jar that keeps the values of [Set-Cookie] as they come. *)
Definition demo_cookiejar_extract
    (get_all : string -> option (list string) -> option (list string))
    (request : Request) (jar : CookieJar) : CookieJar :=
  match get_all "Set-Cookie" None with
  | Some values => jar ++ ((fun v => (v, "")) <$> values)
  | None => jar
  end.

Definition demo_url : URL :=
  {| url_str := "http://example.com/api/widgets?x=1";
     url_scheme := "http";
     url_netloc := "example.com" |}.

Definition demo_request : Request :=
  {| req_method := "get";
     req_url := "http://example.com/api/widgets?x=1";
     req_headers := [("Accept", "*/*")];
     req_body := BodyNone |}.

(** The collaborators' state is the number of calls of the application so
    far: the sentinel a test would watch. *)
Definition demo_world : @world nat :=
  {| collab := 0; trace := []; _hostname := None; session_cookies := [] |}.

(** An application that answers [resp] and counts its calls. *)
Definition counting_client (resp : AppResponse)
  : string -> open_kwargs -> M nat AppResponse :=
  fun _ _ calls => (Ok resp, S calls).

(** An application that raises [e]. *)
Definition failing_client (e : exn) : string -> open_kwargs -> M nat AppResponse :=
  fun _ _ calls => (Raise e, S calls).

(** A handler whose scope does nothing on exit. *)
Definition plain_handler : @handler nat :=
  fun _ σ => (Ok {| scope_exit := fun _ σ' => (Ok false, σ') |}, σ).

(** A handler that answers 403 itself. *)
Definition forbidding_handler : @handler nat :=
  fun request σ =>
    (Raise (CustomHTTPResponse (CustomHTTPResponse_init demo_responses request 403)), σ).

(** A handler whose scope raises on exit. *)
Definition raising_exit_handler : @handler nat :=
  fun _ σ =>
    (Ok {| scope_exit := fun _ σ' => (Raise (OtherError "RuntimeError"), σ') |}, σ).

(** A handler whose scope swallows whatever is in flight. *)
Definition swallowing_handler : @handler nat :=
  fun _ σ => (Ok {| scope_exit := fun _ σ' => (Ok true, σ') |}, σ).

Definition demo_plain_response : AppResponse :=
  {| app_status_code := 200; app_headers := [("Content-Type", "text/plain")];
     app_data := [Byte.x68; Byte.x69] |}.

Definition demo_gzip_response : AppResponse :=
  {| app_status_code := 200; app_headers := [("Content-Encoding", "gzip")];
     app_data := [Byte.x1f; Byte.x8b; Byte.x68; Byte.x69] |}.

Definition demo_empty_response : AppResponse :=
  {| app_status_code := 200; app_headers := []; app_data := [] |}.

(** A handler object with the given application and intercept handlers. *)
Definition demo_loopback (client : string -> open_kwargs -> M nat AppResponse)
    (handlers : list handler) : @FlaskLoopback nat :=
  fold_left (fun self h => register_request_context_handler h self) handlers
            (FlaskLoopback_init 1 client).

Definition demo_handle_request :=
  @handle_request nat demo_responses demo_gzip_decompress "localhost"
                  demo_cookiejar_extract.

Definition demo_address : pyval := VTuple [AStr "localhost"; AInt 8080].

Definition demo_process (policy : unregister_policy)
  : @process nat (spec_dispatch policy) :=
  (∅, FlaskLoopback_init 1 (counting_client demo_plain_response)).

Definition demo_address2 : pyval := VTuple [AStr "example.com"; AInt 443].

(** ** Further notions used in the properties *)

(** The names of a header collection, case folded. *)
Definition header_names (h : headers) : list string := (fun kv => str_lower kv.1) <$> h.

Section MoreBehaviours.

Context {Σ : Type}.

(** For [request], the handler raises [e] instead of entering. *)
Definition refuses (h : @handler Σ) (request : Request) (e : exn) : Prop :=
  forall σ, exists σ', h request σ = (Raise e, σ').

(** [e] is not a [CustomHTTPResponse]. *)
Definition not_custom (e : exn) : Prop :=
  match e with
  | CustomHTTPResponse _ => False
  | _ => True
  end.

End MoreBehaviours.

Section DispatchNotions.

Context {Σ : Type}.
Variable getfqdn : string.

(** The hostname a dispatch started in [w] works with. *)
Definition hostname_in (w : @world Σ) : string := default getfqdn (_hostname w).

(** The keyword arguments built for [request]. *)
Definition kwargs_for (url : URL) (request : Request) (w : @world Σ) : open_kwargs :=
  {| kw_method := str_upper (req_method request);
     kw_headers := req_headers request;
     kw_data := request_data_of request;
     kw_remote_addr := hostname_in w;
     kw_base_url := url_scheme url +:+ "://" +:+ url_netloc url |}.

(** What handlers, exits and the trace leave alone: the hostname cache and
    the session's cookie jar. *)
Definition same_frame (w w' : @world Σ) : Prop :=
  _hostname w' = _hostname w /\ session_cookies w' = session_cookies w.

End DispatchNotions.

(** Every address the handler holds is registered in the table to the handler
    itself. *)
Definition owned {Σ : Type} {policy : unregister_policy}
    (st : @process Σ (spec_dispatch policy)) : Prop :=
  forall a, a ∈ addresses st ->
            exists ssl, table st !! a = Some (self_ref st.2, ssl).

(** ** Further worked instances *)

(** A handler that raises on entry. *)
Definition denying_handler : @handler nat :=
  fun _ σ => (Raise (OtherError "PermissionError"), σ).

(** A response that declares gzip over a body that is not gzip. *)
Definition demo_broken_gzip_response : AppResponse :=
  {| app_status_code := 200; app_headers := [("content-encoding", "gzip")];
     app_data := [Byte.x68; Byte.x69] |}.

(** A response that sets two cookies, and a status code outside the table. *)
Definition demo_cookie_response : AppResponse :=
  {| app_status_code := 299;
     app_headers := [("Set-Cookie", "a=1"); ("set-cookie", "b=2")];
     app_data := [Byte.x68; Byte.x69] |}.

(** A [dispatch] that refuses every registration. *)
Definition refusing_dispatch : Dispatch :=
  {| registry := unit;
     register_loopback_handler := fun _ _ _ => raise (OtherError "RuntimeError");
     unregister_loopback_handler := fun _ => ret tt |}.

(** A state in which [demo_address] is registered to another handler. *)
Definition demo_foreign_process (policy : unregister_policy)
  : @process nat (spec_dispatch policy) :=
  (<[demo_address := (2, false)]> ∅,
   FlaskLoopback_init 1 (counting_client demo_plain_response)).

(** A state in which the handler holds [demo_address]: it activated that
    address while [demo_address2] was registered to another handler. *)
Definition demo_shared_process (policy : unregister_policy)
  : @process nat (spec_dispatch policy) :=
  (activate_address demo_address false
     (<[demo_address2 := (2, true)]> ∅,
      FlaskLoopback_init 1 (counting_client demo_plain_response))).2.

(** A handler over a [dispatch] that refuses every registration. *)
Definition demo_refused_process : @process nat refusing_dispatch :=
  (tt, FlaskLoopback_init 1 (counting_client demo_plain_response)).

(** * Properties *)

Ltac unfold_M :=
  unfold py_assert, lift_result, try_finally in *;
  unfold bind, ret, raise, get, modify in *;
  cbn [fst snd] in *.

#[global] Arguments open_and_translate : simpl never.
#[global] Arguments enter_contexts : simpl never.
#[global] Arguments run_exit_callbacks : simpl never.
#[global] Arguments with_ExitStack : simpl never.
#[global] Arguments build_open_kwargs : simpl never.
#[global] Arguments application_path : simpl never.

(** ** The reader *)

Lemma IOReader_read_closed (size : option Z) (r : IOReader) :
  io_closed r = true -> IOReader_read size r = (Ok [], r).
Proof.
  intros Hc. unfold IOReader_read. unfold_M. by rewrite Hc.
Qed.

Lemma IOReader_read_open (size : option Z) (r : IOReader) :
  io_closed r = false ->
  fits_ssize_t size = true ->
  let avail := drop (io_pos r) (io_buf r) in
  let n := match size with
           | None => length avail
           | Some z => if (z <? 0)%Z then length avail
                       else Nat.min (Z.to_nat z) (length avail)
           end in
  IOReader_read size r
  = (Ok (take n avail),
     {| io_buf := io_buf r; io_pos := io_pos r + n;
        io_closed := bytes_is_empty (take n avail) |}).
Proof.
  intros Hc Hf avail n. unfold IOReader_read, BytesIO_read, IOReader_close. unfold_M.
  cbn [fst snd]. rewrite Hc, Hf. cbn [negb]. rewrite Hc. fold avail. fold n.
  destruct (take n avail); reflexivity.
Qed.

Lemma IOReader_read_overflow (size : option Z) (r : IOReader) :
  io_closed r = false ->
  fits_ssize_t size = false ->
  IOReader_read size r
  = (Raise (OverflowError "cannot fit 'int' into an index-sized integer"), r).
Proof.
  intros Hc Hf. unfold IOReader_read, BytesIO_read. unfold_M.
  cbn [fst snd]. by rewrite Hc, Hf.
Qed.

Lemma IOReader_read_returns (size : option Z) (r : IOReader) :
  fits_ssize_t size = true -> exists out, (IOReader_read size r).1 = Ok out.
Proof.
  intros Hf. destruct (io_closed r) eqn:Hc.
  - rewrite IOReader_read_closed by done. by eexists.
  - rewrite IOReader_read_open by done. by eexists.
Qed.

Lemma IOReader_read_empty_closes (size : option Z) (r : IOReader) :
  (IOReader_read size r).1 = Ok [] -> io_closed (IOReader_read size r).2 = true.
Proof.
  destruct (io_closed r) eqn:Hc.
  - by rewrite IOReader_read_closed.
  - destruct (fits_ssize_t size) eqn:Hf.
    + rewrite IOReader_read_open by done. cbn [fst snd io_closed].
      by intros [= ->].
    + by rewrite IOReader_read_overflow.
Qed.

Lemma IOReader_read_empty_twice (size1 size2 : option Z) :
  fits_ssize_t size1 = true ->
  let closed := {| io_buf := []; io_pos := 0; io_closed := true |} in
  IOReader_read size1 (new_IOReader []) = (Ok [], closed)
  /\ IOReader_read size2 closed = (Ok [], closed).
Proof.
  intros Hf. split; [|reflexivity].
  rewrite IOReader_read_open by done. cbn [new_IOReader io_pos io_buf].
  rewrite drop_0, take_nil. cbn.
  destruct size1 as [z|]; [destruct (z <? 0)%Z|]; rewrite ?Nat.min_0_r; reflexivity.
Qed.

(** ** The application path *)

Lemma str_split_nonempty (sep : ascii) (n : nat) (s : string) :
  str_split sep n s <> [].
Proof.
  destruct s as [|c rest]; [done|]. destruct n as [|m]; [done|]. cbn.
  destruct (Ascii.eqb c sep); [done|]. by destruct (str_split sep (S m) rest).
Qed.

Lemma application_path_ok (url : string) :
  exists path, application_path url = Ok path.
Proof.
  unfold application_path.
  destruct (last (str_split "/" 3 url)) as [tail|] eqn:Hl; [eauto|].
  apply last_None in Hl. by apply str_split_nonempty in Hl.
Qed.

Lemma str_split_zero (sep : ascii) (s : string) : str_split sep 0 s = [s].
Proof. by destruct s. Qed.

Lemma str_split_cut (sep : ascii) (n : nat) (piece rest : string) :
  str_contains sep piece = false ->
  str_split sep (S n) (piece +:+ String sep rest) = piece :: str_split sep n rest.
Proof.
  induction piece as [|c piece IH]; intros Hc.
  - change (str_split sep (S n) (String sep rest) = "" :: str_split sep n rest).
    cbn [str_split]. by rewrite Ascii.eqb_refl.
  - cbn in Hc. apply orb_false_elim in Hc as [Hc1 Hc2].
    change (str_split sep (S n) (String c (piece +:+ String sep rest))
            = String c piece :: str_split sep n rest).
    cbn [str_split]. rewrite Hc1.
    by rewrite (IH Hc2).
Qed.

Lemma application_path_after_third_slash (s1 s2 s3 rest : string) :
  str_contains "/" s1 = false ->
  str_contains "/" s2 = false ->
  str_contains "/" s3 = false ->
  application_path (s1 +:+ "/" +:+ s2 +:+ "/" +:+ s3 +:+ "/" +:+ rest)
  = Ok ("/" +:+ rest).
Proof.
  intros H1 H2 H3. unfold application_path.
  change ("/" +:+ s2 +:+ "/" +:+ s3 +:+ "/" +:+ rest)
    with (String "/" (s2 +:+ String "/" (s3 +:+ String "/" rest))).
  rewrite !str_split_cut, str_split_zero by done. reflexivity.
Qed.

(** ** Dispatch of one request *)

Section DispatchProperties.

Context {Σ : Type}.
Variable responses : gmap Z string.
Variable gzip_decompress : bytes -> result bytes.
Variable getfqdn : string.
Variable cookiejar_extract :
  (string -> option (list string) -> option (list string)) ->
  Request -> CookieJar -> CookieJar.

Lemma in_collab_trace {A} (m : M Σ A) (w : @world Σ) :
  trace (in_collab m w).2 = trace w.
Proof. unfold in_collab. by destruct (m (collab w)). Qed.

Lemma log_trace (ev : event) (w : @world Σ) :
  trace (log ev w).2 = trace w ++ [ev].
Proof. reflexivity. Qed.

Lemma enter_contexts_cons (request : Request) (h : handler)
    (handlers : list handler) (i : nat) (stack : exit_stack) (w : @world Σ) :
  enter_contexts i (h :: handlers) request stack w
  = match in_collab (h request) w with
    | (Ok cm, w') =>
        enter_contexts (S i) handlers request ((i, cm) :: stack) (log (Entered i) w').2
    | (Raise (CustomHTTPResponse response), w') => ((Ok (Some response), stack), w')
    | (Raise e, w') => ((Raise e, stack), w')
    end.
Proof. reflexivity. Qed.

Lemma run_exit_callbacks_cons (i : nat) (cb : scope) (stack : exit_stack)
    (u : unwinding) (w : @world Σ) :
  run_exit_callbacks ((i, cb) :: stack) u w
  = match in_collab (scope_exit cb (exc_details u)) (log (Exited i) w).2 with
    | (Ok true, w') =>
        run_exit_callbacks stack
          {| exc_details := None; suppressed_exc := true; pending_raise := false |} w'
    | (Ok false, w') => run_exit_callbacks stack u w'
    | (Raise new_exc, w') =>
        run_exit_callbacks stack
          {| exc_details := Some new_exc; suppressed_exc := suppressed_exc u;
             pending_raise := true |} w'
    end.
Proof. reflexivity. Qed.

Lemma enter_contexts_trace (request : Request) (handlers : list handler) :
  forall (i : nat) (stack : exit_stack) (w : @world Σ),
    exists k : nat,
      k <= length handlers
      /\ trace (enter_contexts i handlers request stack w).2
         = trace w ++ (Entered <$> seq i k)
      /\ (enter_contexts i handlers request stack w).1.2.*1
         = rev (seq i k) ++ stack.*1.
Proof.
  induction handlers as [|h handlers IH]; intros i stack w.
  - exists 0. cbn. by rewrite app_nil_r.
  - rewrite enter_contexts_cons.
    pose proof (in_collab_trace (h request) w) as Ht.
    destruct (in_collab (h request) w) as [[cm|e] w'] eqn:Eh; cbn [snd] in Ht.
    + match goal with |- context [enter_contexts (S i) handlers request ?st ?w1] =>
        destruct (IH (S i) st w1) as (k & Hk & Htr & Hst) end.
      exists (S k). split; [cbn; lia|]. split.
      * rewrite Htr, log_trace, Ht. cbn [seq fmap list_fmap].
        by rewrite <- app_assoc.
      * rewrite Hst. cbn [seq rev fmap list_fmap fst]. by rewrite <- app_assoc.
    + exists 0. destruct e; cbn; rewrite ?app_nil_r; auto with lia.
Qed.

Lemma run_exit_callbacks_trace (stack : exit_stack) :
  forall (u : unwinding) (w : @world Σ),
    trace (run_exit_callbacks stack u w).2 = trace w ++ (Exited <$> stack.*1).
Proof.
  induction stack as [|[i cb] stack IH]; intros u w.
  - cbn. by rewrite app_nil_r.
  - rewrite run_exit_callbacks_cons.
    match goal with |- context [in_collab ?m ?w1] =>
      pose proof (in_collab_trace m w1) as Ht;
      destruct (in_collab m w1) as [[[]|e] w'] eqn:Eh end;
      cbn [snd] in Ht; rewrite IH, Ht, log_trace; cbn [fmap list_fmap fst];
      by rewrite <- app_assoc.
Qed.

Lemma with_ExitStack_trace {A}
    (body : world -> (result A * exit_stack) * world) (w : @world Σ) :
  trace (with_ExitStack body w).2
  = trace (body w).2 ++ (Exited <$> (body w).1.2.*1).
Proof.
  unfold with_ExitStack. destruct (body w) as [[outcome stack] w1]; cbn [fst snd].
  match goal with |- context [run_exit_callbacks stack ?u w1] =>
    pose proof (run_exit_callbacks_trace stack u w1) as Ht;
    destruct (run_exit_callbacks stack u w1) as [u' w2] end.
  cbn [snd] in Ht. rewrite <- Ht.
  destruct (pending_raise u'), (exc_details u'), outcome, (suppressed_exc u');
    reflexivity.
Qed.

Lemma build_open_kwargs_ok (url : URL) (request : Request) (w : @world Σ) :
  exists kwargs w1,
    build_open_kwargs getfqdn url request w = (Ok kwargs, w1)
    /\ trace w1 = trace w /\ collab w1 = collab w.
Proof.
  unfold build_open_kwargs, _get_hostname. unfold_M.
  destruct (_hostname w); cbn; eauto.
Qed.

Lemma open_and_translate_trace (self : FlaskLoopback) (url : URL)
    (request : Request) (path : string) (kwargs : open_kwargs) (w : @world Σ) :
  trace (open_and_translate responses gzip_decompress cookiejar_extract
           self url request path kwargs w).2
  = trace w ++ [Opened path kwargs].
Proof.
  unfold open_and_translate, _extract_cookies, log. unfold_M. cbn.
  match goal with |- context [in_collab ?m ?w1] =>
    pose proof (in_collab_trace m w1) as Ht;
    destruct (in_collab m w1) as [[resp|e] w'] end; cbn in Ht |- *; [|done].
  destruct (bool_decide _); cbn; [destruct (gzip_decompress _)|]; cbn; done.
Qed.

Lemma handle_request_trace (self : FlaskLoopback) (url : URL)
    (request : Request) (w : @world Σ) :
  exists (k : nat) (mid : list event),
    k <= length (_request_context_handlers self)
    /\ trace (handle_request responses gzip_decompress getfqdn cookiejar_extract
                self url request w).2
       = trace w ++ (Entered <$> seq 0 k) ++ mid ++ (Exited <$> rev (seq 0 k))
    /\ (mid = [] \/ exists path kwargs,
           application_path (url_str url) = Ok path /\ mid = [Opened path kwargs]).
Proof.
  assert (Hnone : exists (k : nat) (mid : list event),
             k <= length (_request_context_handlers self)
             /\ trace w
                = trace w ++ (Entered <$> seq 0 k) ++ mid ++ (Exited <$> rev (seq 0 k))
             /\ (mid = [] \/ exists path kwargs,
                    application_path (url_str url) = Ok path
                    /\ mid = [Opened path kwargs])).
  { exists 0, []. cbn. rewrite app_nil_r. split; [lia|]. split; [done|]. by left. }
  unfold handle_request. unfold_M.
  destruct (negb _); unfold_M; [|exact Hnone].
  destruct (application_path (url_str url)) as [path|e] eqn:Hp; cbn [fst snd];
    [|exact Hnone].
  destruct (build_open_kwargs_ok url request w) as (kwargs & w0 & -> & Ht0 & _).
  rewrite with_ExitStack_trace. unfold with_body.
  destruct (enter_contexts_trace request (_request_context_handlers self) 0 [] w0)
    as (k & Hk & Htr & Hst).
  destruct (enter_contexts 0 _ request [] w0) as [[[[response|]|e] stack] w1];
    cbn [fst snd] in *; rewrite app_nil_r in Hst.
  - exists k, []. rewrite Htr, Hst, Ht0, <- !app_assoc. cbn.
    split; [done|]. split; [done|]. by left.
  - pose proof (open_and_translate_trace self url request path kwargs w1) as Ho.
    destruct (open_and_translate responses gzip_decompress cookiejar_extract
                self url request path kwargs w1) as [r w2].
    cbn [fst snd] in *. exists k, [Opened path kwargs].
    rewrite Ho, Htr, Hst, Ht0, <- !app_assoc.
    split; [done|]. split; [done|]. right. by exists path, kwargs.
  - exists k, []. rewrite Htr, Hst, Ht0, <- !app_assoc. cbn.
    split; [done|]. split; [done|]. by left.
Qed.

Lemma in_collab_eq {A} (m : M Σ A) (w : @world Σ) (r : result A) (σ : Σ) :
  m (collab w) = (r, σ) ->
  in_collab m w = (r, {| collab := σ; trace := trace w; _hostname := _hostname w;
                         session_cookies := session_cookies w |}).
Proof. unfold in_collab. by intros ->. Qed.

Lemma enter_contexts_app (P : scope -> Prop) (request : Request)
    (before rest : list handler) :
  Forall (enters_with P request) before ->
  forall (i : nat) (stack : exit_stack) (w : @world Σ),
    Forall P stack.*2 ->
    exists (stack' : exit_stack) (w' : @world Σ),
      enter_contexts i (before ++ rest) request stack w
      = enter_contexts (i + length before) rest request stack' w'
      /\ Forall P stack'.*2
      /\ stack'.*1 = rev (seq i (length before)) ++ stack.*1
      /\ trace w' = trace w ++ (Entered <$> seq i (length before)).
Proof.
  induction 1 as [|h before Hh _ IH]; intros i stack w Hst.
  - exists stack, w. cbn. rewrite Nat.add_0_r, app_nil_r. auto.
  - cbn [app]. rewrite enter_contexts_cons.
    destruct (Hh (collab w)) as (cm & σ' & Hm & HP).
    rewrite (in_collab_eq _ _ _ _ Hm).
    match goal with |- context [enter_contexts (S i) _ request ?st ?w1] =>
      destruct (IH (S i) st w1) as (stack' & w' & -> & HP' & Hs' & Ht') end.
    { cbn. by constructor. }
    exists stack', w'. cbn [length]. rewrite Nat.add_succ_r. split; [done|].
    split; [done|]. split.
    + rewrite Hs'. cbn [seq rev fmap list_fmap fst]. by rewrite <- app_assoc.
    + rewrite Ht'. cbn [seq fmap list_fmap log modify snd trace].
      by rewrite <- app_assoc.
Qed.

Lemma run_exit_callbacks_transparent (stack : exit_stack) :
  Forall transparent stack.*2 ->
  forall (u : unwinding) (w : @world Σ),
    exists w', run_exit_callbacks stack u w = (u, w').
Proof.
  induction stack as [|[i cb] stack IH]; intros Hst u w.
  - by exists w.
  - apply Forall_cons in Hst as [Hcb Hst]. cbn [snd] in Hcb.
    rewrite run_exit_callbacks_cons.
    destruct (Hcb (exc_details u) (collab (log (Exited i) w).2)) as (σ' & Hm).
    rewrite (in_collab_eq _ _ _ _ Hm). by apply IH.
Qed.

Lemma run_exit_callbacks_quiet (stack : exit_stack) :
  Forall exits_quietly stack.*2 ->
  forall (suppressed : bool) (w : @world Σ),
    exists suppressed' w',
      run_exit_callbacks stack
        {| exc_details := None; suppressed_exc := suppressed;
           pending_raise := false |} w
      = ({| exc_details := None; suppressed_exc := suppressed';
            pending_raise := false |}, w').
Proof.
  induction stack as [|[i cb] stack IH]; intros Hst suppressed w.
  - by exists suppressed, w.
  - apply Forall_cons in Hst as [Hcb Hst]. cbn [snd] in Hcb.
    rewrite run_exit_callbacks_cons.
    cbn [exc_details].
    destruct (Hcb (collab (log (Exited i) w).2)) as (b & σ' & Hm).
    rewrite (in_collab_eq _ _ _ _ Hm). destruct b; by apply IH.
Qed.

End DispatchProperties.

(** ** The outcome of a dispatch *)

Section DispatchOutcomes.

Context {Σ : Type}.
Variable responses : gmap Z string.
Variable gzip_decompress : bytes -> result bytes.
Variable getfqdn : string.
Variable cookiejar_extract :
  (string -> option (list string) -> option (list string)) ->
  Request -> CookieJar -> CookieJar.

Lemma enter_contexts_nil (request : Request) (i : nat) (stack : exit_stack)
    (w : @world Σ) :
  enter_contexts i [] request stack w = ((Ok None, stack), w).
Proof. reflexivity. Qed.

Lemma handle_request_eq (self : FlaskLoopback) (url : URL) (request : Request)
    (w : @world Σ) :
  url_scheme url <> "" ->
  exists path kwargs w0,
    application_path (url_str url) = Ok path
    /\ trace w0 = trace w
    /\ handle_request responses gzip_decompress getfqdn cookiejar_extract
         self url request w
       = with_ExitStack (with_body responses gzip_decompress cookiejar_extract
                           self url request path kwargs) w0.
Proof.
  intros Hs. unfold handle_request. unfold_M.
  destruct (String.eqb_spec (url_scheme url) ""); [done|]. unfold_M.
  destruct (application_path_ok (url_str url)) as [path Hp]. rewrite Hp. cbn [negb].
  destruct (build_open_kwargs_ok getfqdn url request w) as (kwargs & w0 & -> & Ht & _).
  by exists path, kwargs, w0.
Qed.

(** With handlers whose scopes are transparent, the outcome of the dispatch
    is the outcome of calling the application and translating its response. *)
Lemma handle_request_transparent (self : FlaskLoopback) (url : URL)
    (request : Request) (w : @world Σ) :
  url_scheme url <> "" ->
  Forall (enters_with transparent request) (_request_context_handlers self) ->
  let n := length (_request_context_handlers self) in
  exists path kwargs w1 w3,
    application_path (url_str url) = Ok path
    /\ handle_request responses gzip_decompress getfqdn cookiejar_extract
         self url request w
       = (match (open_and_translate responses gzip_decompress cookiejar_extract
                   self url request path kwargs w1).1 with
          | Ok returned => Ok (Some returned)
          | Raise e => Raise e
          end, w3)
    /\ trace w3 = trace w ++ (Entered <$> seq 0 n) ++ [Opened path kwargs]
                          ++ (Exited <$> rev (seq 0 n)).
Proof.
  intros Hs Hh n.
  destruct (handle_request_eq self url request w Hs)
    as (path & kwargs & w0 & Hp & Ht0 & ->).
  destruct (enter_contexts_app transparent request _ [] Hh 0 [] w0)
    as (stack & w1 & He & Hst & Hix & Ht1); [constructor|].
  rewrite app_nil_r, enter_contexts_nil in He.
  exists path, kwargs, w1. unfold with_ExitStack, with_body. rewrite He.
  cbn [fst snd].
  pose proof (open_and_translate_trace responses gzip_decompress cookiejar_extract
                self url request path kwargs w1) as Ht2.
  destruct (open_and_translate responses gzip_decompress cookiejar_extract
              self url request path kwargs w1) as [r w2].
  match goal with |- context [run_exit_callbacks stack ?u w2] =>
    pose proof (run_exit_callbacks_trace stack u w2) as Ht3;
    destruct (run_exit_callbacks_transparent stack Hst u w2) as [w3 Hr] end.
  rewrite Hr in Ht3 |- *. cbn [fst snd] in *. exists w3. split; [done|]. split.
  - by destruct r.
  - rewrite Ht3, Ht2, Ht1, Ht0, Hix, app_nil_r, <- !app_assoc. reflexivity.
Qed.

(** With handlers whose scopes exit without raising when nothing is in
    flight, a response the translation returns is what the dispatch returns. *)
Lemma handle_request_quiet (self : FlaskLoopback) (url : URL)
    (request : Request) (w : @world Σ) :
  url_scheme url <> "" ->
  Forall (enters_with exits_quietly request) (_request_context_handlers self) ->
  exists path kwargs w1,
    application_path (url_str url) = Ok path
    /\ forall returned,
         (open_and_translate responses gzip_decompress cookiejar_extract
            self url request path kwargs w1).1 = Ok returned ->
         exists w3, handle_request responses gzip_decompress getfqdn cookiejar_extract
                      self url request w = (Ok (Some returned), w3).
Proof.
  intros Hs Hh.
  destruct (handle_request_eq self url request w Hs)
    as (path & kwargs & w0 & Hp & Ht0 & ->).
  destruct (enter_contexts_app exits_quietly request _ [] Hh 0 [] w0)
    as (stack & w1 & He & Hst & _); [constructor|].
  rewrite app_nil_r, enter_contexts_nil in He.
  exists path, kwargs, w1. split; [done|]. intros returned Hr.
  unfold with_ExitStack, with_body. rewrite He. cbn [fst snd].
  destruct (open_and_translate responses gzip_decompress cookiejar_extract
              self url request path kwargs w1) as [r w2].
  cbn [fst] in Hr. subst r.
  destruct (run_exit_callbacks_quiet stack Hst false w2) as (s' & w3 & ->).
  by exists w3.
Qed.

Lemma open_and_translate_answered (self : FlaskLoopback) (url : URL)
    (request : Request) (path : string) (kwargs : open_kwargs) (w : @world Σ)
    (resp : AppResponse) (data : bytes) :
  answers (_test_client self) resp ->
  (declares_gzip resp -> gzip_decompress (app_data resp) = Ok data) ->
  (~ declares_gzip resp -> app_data resp = data) ->
  exists returned raw,
    (open_and_translate responses gzip_decompress cookiejar_extract
       self url request path kwargs w).1 = Ok returned
    /\ response__content returned = Some data
    /\ response_raw returned = Some raw
    /\ hr_body raw = Some (new_IOReader data)
    /\ response_status_code returned = Some (app_status_code resp)
    /\ response_reason returned = responses !! app_status_code resp
    /\ response_url returned = Some (url_str url)
    /\ response_request returned = Some request.
Proof.
  intros Ha Hz Hp. unfold open_and_translate, _extract_cookies.
  unfold_M. cbn [log modify].
  match goal with |- context [in_collab _ ?w1] =>
    destruct (Ha path kwargs (collab w1)) as [σ' Hm] end.
  rewrite (in_collab_eq _ _ _ _ Hm). cbn [bool_decide decide_rel].
  unfold declares_gzip in *.
  destruct (bool_decide_reflect
              (headers_get "content-encoding" (app_headers resp) = Some "gzip"))
    as [Hg|Hg]; cbn;
    [rewrite (Hz Hg) | rewrite (Hp Hg)]; cbn;
    (do 2 eexists; split; [reflexivity|]; cbn; by repeat split).
Qed.

Lemma open_and_translate_fails (self : FlaskLoopback) (url : URL)
    (request : Request) (path : string) (kwargs : open_kwargs) (w : @world Σ)
    (e : exn) :
  fails_with (_test_client self) e ->
  (open_and_translate responses gzip_decompress cookiejar_extract
     self url request path kwargs w).1 = Raise e.
Proof.
  intros Hf. unfold open_and_translate. unfold_M. cbn [log modify].
  match goal with |- context [in_collab _ ?w1] =>
    destruct (Hf path kwargs (collab w1)) as [σ' Hm] end.
  by rewrite (in_collab_eq _ _ _ _ Hm).
Qed.

(** Whatever the application answered, a translated response carries its
    body both as [_content] and as an open reader over the same bytes. *)
Lemma open_and_translate_raw (self : FlaskLoopback) (url : URL)
    (request : Request) (path : string) (kwargs : open_kwargs) (w : @world Σ) :
  match (open_and_translate responses gzip_decompress cookiejar_extract
           self url request path kwargs w).1 with
  | Ok returned =>
      exists data raw,
        response__content returned = Some data
        /\ response_raw returned = Some raw
        /\ hr_body raw = Some (new_IOReader data)
  | Raise _ => True
  end.
Proof.
  unfold open_and_translate, _extract_cookies. unfold_M. cbn [log modify].
  match goal with |- context [in_collab ?m ?w1] =>
    destruct (in_collab m w1) as [[resp|e] w'] end; cbn [fst snd]; [|done].
  destruct (bool_decide (headers_get _ _ = _)); [destruct (gzip_decompress _)|];
    cbn; try done; (do 2 eexists; repeat split; reflexivity).
Qed.

(** A handler that short-circuits ends the dispatch with its response: the
    scopes entered before it are exited, and the application is not called. *)
Lemma handle_request_short_circuit (self : FlaskLoopback) (url : URL)
    (request : Request) (w : @world Σ) (before after : list handler)
    (h : handler) (response : Response) :
  url_scheme url <> "" ->
  _request_context_handlers self = before ++ h :: after ->
  Forall (enters_with exits_quietly request) before ->
  short_circuits h request response ->
  exists w',
    handle_request responses gzip_decompress getfqdn cookiejar_extract
      self url request w = (Ok (Some response), w')
    /\ trace w' = trace w ++ (Entered <$> seq 0 (length before))
                          ++ (Exited <$> rev (seq 0 (length before))).
Proof.
  intros Hs Hhs Hb Hh.
  destruct (handle_request_eq self url request w Hs)
    as (path & kwargs & w0 & _ & Ht0 & ->).
  destruct (enter_contexts_app exits_quietly request before (h :: after) Hb 0 [] w0)
    as (stack & w1 & He & Hst & Hix & Ht1); [constructor|].
  rewrite enter_contexts_cons in He.
  destruct (Hh (collab w1)) as [σ' Hm]. rewrite (in_collab_eq _ _ _ _ Hm) in He.
  unfold with_ExitStack, with_body. rewrite Hhs, He. cbn [fst snd].
  match goal with |- context [run_exit_callbacks stack ?u ?w2] =>
    pose proof (run_exit_callbacks_trace stack u w2) as Ht2;
    destruct (run_exit_callbacks_quiet stack Hst false w2) as (s' & w3 & Hr) end.
  rewrite Hr in Ht2 |- *. cbn [fst snd pending_raise trace] in *.
  exists w3. split; [done|].
  rewrite Ht2, Ht1, Ht0, Hix, app_nil_r. by rewrite <- app_assoc.
Qed.

End DispatchOutcomes.

(** ** The claims about [handle_request] *)

Section DispatchClaims.

Context {Σ : Type}.
Variable responses : gmap Z string.
Variable gzip_decompress : bytes -> result bytes.
Variable getfqdn : string.
Variable cookiejar_extract :
  (string -> option (list string) -> option (list string)) ->
  Request -> CookieJar -> CookieJar.

(** C1 (amended).  For a target URL of the form [s1/s2/s3/rest], where [s1],
    [s2] and [s3] hold no ['/'], the path [handle_request] builds is ['/']
    followed by [rest], everything after the third ['/'] of the URL string, and
    this is the only path with which the dispatch opens the application.  For
    [http://example.com/api/widgets?x=1] this is [/api/widgets?x=1]. *)
Theorem handle_request_path (self : FlaskLoopback) (url : URL)
    (request : Request) (w : @world Σ) (s1 s2 s3 rest : string) :
  str_contains "/" s1 = false ->
  str_contains "/" s2 = false ->
  str_contains "/" s3 = false ->
  url_str url = s1 +:+ "/" +:+ s2 +:+ "/" +:+ s3 +:+ "/" +:+ rest ->
  application_path (url_str url) = Ok ("/" +:+ rest)
  /\ forall path kwargs,
       Opened path kwargs
         ∈ trace (handle_request responses gzip_decompress getfqdn cookiejar_extract
                    self url request w).2 ->
       Opened path kwargs ∈ trace w \/ path = "/" +:+ rest.
Proof.
  intros H1 H2 H3 Hu.
  assert (Hp : application_path (url_str url) = Ok ("/" +:+ rest))
    by (rewrite Hu; by apply application_path_after_third_slash).
  split; [exact Hp|]. intros path kwargs Hin.
  destruct (handle_request_trace responses gzip_decompress getfqdn cookiejar_extract
              self url request w) as (k & mid & _ & Ht & Hmid).
  rewrite Ht in Hin. rewrite !elem_of_app in Hin.
  destruct Hin as [Hin|[Hin|[Hin|Hin]]].
  - by left.
  - apply list_elem_of_fmap in Hin as (i & Hi & _). discriminate.
  - destruct Hmid as [->|(path' & kwargs' & Hp' & ->)].
    + by apply elem_of_nil in Hin.
    + apply list_elem_of_singleton in Hin. rewrite Hp in Hp'. right. congruence.
  - apply list_elem_of_fmap in Hin as (i & Hi & _). discriminate.
Qed.

(** C2 (amended).  When a registered intercept handler raises
    [CustomHTTPResponse] for the request with status code [c], the handlers
    before it having been entered into scopes whose exit does not raise, the
    dispatch returns the response the exception carries: its status code is
    [c], its reason is the table's phrase for [c] (or [None]), its URL and
    request are those of the request.  The scopes entered are exited in
    reverse order and the application is never opened. *)
Theorem short_circuit_returns_custom_response (self : FlaskLoopback) (url : URL)
    (request : Request) (w : @world Σ) (before after : list handler)
    (h : handler) (c : Z) :
  url_scheme url <> "" ->
  _request_context_handlers self = before ++ h :: after ->
  Forall (enters_with exits_quietly request) before ->
  short_circuits h request (CustomHTTPResponse_init responses request c) ->
  exists response w',
    handle_request responses gzip_decompress getfqdn cookiejar_extract
      self url request w = (Ok (Some response), w')
    /\ response_status_code response = Some c
    /\ response_reason response = responses !! c
    /\ response_url response = Some (req_url request)
    /\ response_request response = Some request
    /\ trace w' = trace w ++ (Entered <$> seq 0 (length before))
                          ++ (Exited <$> rev (seq 0 (length before)))
    /\ forall path kwargs,
         Opened path kwargs ∈ trace w' -> Opened path kwargs ∈ trace w.
Proof.
  intros Hs Hhs Hb Hh.
  destruct (handle_request_short_circuit responses gzip_decompress getfqdn
              cookiejar_extract self url request w before after h _ Hs Hhs Hb Hh)
    as (w' & Hr & Ht).
  exists (CustomHTTPResponse_init responses request c), w'.
  repeat (split; [done|]). intros path kwargs Hin.
  rewrite Ht, !elem_of_app in Hin.
  destruct Hin as [Hin|[Hin|Hin]]; [done| |];
    apply list_elem_of_fmap in Hin as (i & Hi & _); discriminate.
Qed.

(** C3 (amended).  On every termination path of [handle_request] the scopes
    that were entered are exited once each, in reverse order of entry, after
    the application (if it was opened at all).  When every handler enters a
    scope whose exit neither swallows nor raises, an exception raised by the
    application reaches the caller unchanged, after those exits. *)
Theorem scopes_exited_in_reverse_order (self : FlaskLoopback) (url : URL)
    (request : Request) (w : @world Σ) :
  (exists (k : nat) (mid : list event),
      k <= length (_request_context_handlers self)
      /\ trace (handle_request responses gzip_decompress getfqdn cookiejar_extract
                  self url request w).2
         = trace w ++ (Entered <$> seq 0 k) ++ mid ++ (Exited <$> rev (seq 0 k))
      /\ (mid = [] \/ exists path kwargs, mid = [Opened path kwargs]))
  /\ (url_scheme url <> "" ->
      Forall (enters_with transparent request) (_request_context_handlers self) ->
      forall e, fails_with (_test_client self) e ->
        let n := length (_request_context_handlers self) in
        (handle_request responses gzip_decompress getfqdn cookiejar_extract
           self url request w).1 = Raise e
        /\ exists path kwargs,
             trace (handle_request responses gzip_decompress getfqdn cookiejar_extract
                      self url request w).2
             = trace w ++ (Entered <$> seq 0 n) ++ [Opened path kwargs]
                       ++ (Exited <$> rev (seq 0 n))).
Proof.
  split.
  - destruct (handle_request_trace responses gzip_decompress getfqdn
                cookiejar_extract self url request w) as (k & mid & Hk & Ht & Hmid).
    exists k, mid. split; [done|]. split; [done|].
    destruct Hmid as [->|(path & kwargs & _ & ->)]; [by left | right; eauto].
  - intros Hs Hh e He n.
    destruct (handle_request_transparent responses gzip_decompress getfqdn
                cookiejar_extract self url request w Hs Hh)
      as (path & kwargs & w1 & w3 & _ & Hr & Ht).
    rewrite Hr. cbn [fst snd].
    rewrite (open_and_translate_fails responses gzip_decompress cookiejar_extract
               self url request path kwargs w1 e He).
    split; [done|]. by exists path, kwargs.
Qed.

(** C7.  When the application's response declares [content-encoding: gzip] and
    its body decompresses to [original], the response the dispatch returns
    has [original] as its content; when the response does not declare it, the
    content is the body as the application gave it. *)
Theorem content_is_decompressed_body (self : FlaskLoopback) (url : URL)
    (request : Request) (w : @world Σ) (resp : AppResponse) :
  url_scheme url <> "" ->
  Forall (enters_with exits_quietly request) (_request_context_handlers self) ->
  answers (_test_client self) resp ->
  (declares_gzip resp ->
   forall original, gzip_decompress (app_data resp) = Ok original ->
     exists returned w',
       handle_request responses gzip_decompress getfqdn cookiejar_extract
         self url request w = (Ok (Some returned), w')
       /\ response__content returned = Some original)
  /\ (~ declares_gzip resp ->
      exists returned w',
        handle_request responses gzip_decompress getfqdn cookiejar_extract
          self url request w = (Ok (Some returned), w')
        /\ response__content returned = Some (app_data resp)).
Proof.
  intros Hs Hh Ha.
  destruct (handle_request_quiet responses gzip_decompress getfqdn cookiejar_extract
              self url request w Hs Hh) as (path & kwargs & w1 & _ & Hq).
  split.
  - intros Hg original Hd.
    destruct (open_and_translate_answered responses gzip_decompress cookiejar_extract
                self url request path kwargs w1 resp original Ha)
      as (returned & raw & Hr & Hc & _); [done..|].
    destruct (Hq returned Hr) as [w' Hw]. by exists returned, w'.
  - intros Hg.
    destruct (open_and_translate_answered responses gzip_decompress cookiejar_extract
                self url request path kwargs w1 resp (app_data resp) Ha)
      as (returned & raw & Hr & Hc & _); [done..|].
    destruct (Hq returned Hr) as [w' Hw]. by exists returned, w'.
Qed.

(** C8.  The response translated from a body [data] (empty or not) carries a
    reader over [data], never a null one, and so does every response the
    translation returns.  A read on a closed reader returns the empty byte
    string and raises nothing, whatever its size argument; a read that returns
    the empty byte string leaves the reader closed; a read whose size argument
    is absent or fits a [Py_ssize_t] raises nothing; a reader over the empty
    body returns empty on such a first read, is closed from then on, and
    returns empty again on the second read, whatever that one's size
    argument. *)
Theorem raw_reader_is_socket_like (self : FlaskLoopback) (url : URL)
    (request : Request) (w : @world Σ) (resp : AppResponse) (data : bytes) :
  url_scheme url <> "" ->
  Forall (enters_with exits_quietly request) (_request_context_handlers self) ->
  answers (_test_client self) resp ->
  (declares_gzip resp -> gzip_decompress (app_data resp) = Ok data) ->
  (~ declares_gzip resp -> app_data resp = data) ->
  (exists returned w' raw,
      handle_request responses gzip_decompress getfqdn cookiejar_extract
        self url request w = (Ok (Some returned), w')
      /\ response_raw returned = Some raw
      /\ hr_body raw = Some (new_IOReader data))
  /\ (forall path kwargs w1,
        match (open_and_translate responses gzip_decompress cookiejar_extract
                 self url request path kwargs w1).1 with
        | Ok returned =>
            exists body raw,
              response__content returned = Some body
              /\ response_raw returned = Some raw
              /\ hr_body raw = Some (new_IOReader body)
        | Raise _ => True
        end)
  /\ (forall size r, io_closed r = true -> IOReader_read size r = (Ok [], r))
  /\ (forall size r,
        (IOReader_read size r).1 = Ok [] ->
        io_closed (IOReader_read size r).2 = true)
  /\ (forall size r,
        fits_ssize_t size = true -> exists out, (IOReader_read size r).1 = Ok out)
  /\ (data = [] ->
      forall size1 size2,
        fits_ssize_t size1 = true ->
        let closed := {| io_buf := []; io_pos := 0; io_closed := true |} in
        IOReader_read size1 (new_IOReader data) = (Ok [], closed)
        /\ IOReader_read size2 closed = (Ok [], closed)).
Proof.
  intros Hs Hh Ha Hz Hp.
  destruct (handle_request_quiet responses gzip_decompress getfqdn cookiejar_extract
              self url request w Hs Hh) as (path & kwargs & w1 & _ & Hq).
  destruct (open_and_translate_answered responses gzip_decompress cookiejar_extract
              self url request path kwargs w1 resp data Ha Hz Hp)
    as (returned & raw & Hr & _ & Hraw & Hbody & _).
  destruct (Hq returned Hr) as [w' Hw].
  split; [by exists returned, w', raw|].
  split; [intros path' kwargs' w1'; apply open_and_translate_raw|].
  split; [intros size r; apply IOReader_read_closed|].
  split; [intros size r; apply IOReader_read_empty_closes|].
  split; [intros size r; apply IOReader_read_returns|].
  intros -> size1 size2. apply IOReader_read_empty_twice.
Qed.

End DispatchClaims.

(** ** Activation and deactivation *)

Lemma add_then_remove (a : pyval) (s : gset pyval) :
  a ∉ s -> ({[a]} ∪ s) ∖ {[a]} = s.
Proof.
  intros Hn. apply set_eq. intros x.
  rewrite elem_of_difference, elem_of_union, elem_of_singleton. split.
  - by intros [[->|Hx] Hne].
  - intros Hx. split; [by right|]. by intros ->.
Qed.

Lemma elem_of_add (a : pyval) (s : gset pyval) : a ∈ {[a]} ∪ s.
Proof. apply elem_of_union_l. by apply elem_of_singleton. Qed.

Lemma not_elem_of_remove (a : pyval) (s : gset pyval) : a ∉ s ∖ {[a]}.
Proof. rewrite elem_of_difference, elem_of_singleton. tauto. Qed.

Section ActivationProperties.

Context {Σ : Type} `{D : Dispatch}.

Lemma activate_address_eq (address : pyval) (ssl : bool) (st : @process Σ D) :
  is_address address = true ->
  activate_address address ssl st
  = match register_loopback_handler address (self_ref st.2) ssl st.1 with
    | (Ok _, reg') =>
        (Ok tt, (reg', set_registered_addresses (fun s => {[address]} ∪ s) st.2))
    | (Raise e, reg') => (Raise e, (reg', st.2))
    end.
Proof.
  intros Ha. unfold activate_address, in_dispatch, addresses_add. rewrite Ha.
  unfold_M. by destruct (register_loopback_handler _ _ _ _) as [[[]|e] reg'].
Qed.

Lemma deactivate_address_eq (address : pyval) (st : @process Σ D) :
  is_address address = true ->
  deactivate_address address st
  = match unregister_loopback_handler address st.1 with
    | (Ok _, reg') =>
        if decide (address ∈ addresses st)
        then (Ok tt, (reg', set_registered_addresses (fun s => s ∖ {[address]}) st.2))
        else (Raise (KeyError address), (reg', st.2))
    | (Raise e, reg') => (Raise e, (reg', st.2))
    end.
Proof.
  intros Ha. unfold deactivate_address, in_dispatch, addresses_remove. rewrite Ha.
  unfold_M. destruct (unregister_loopback_handler _ _) as [[[]|e] reg']; [|done].
  cbn [fst snd]. by destruct (decide _).
Qed.

(** C9.  [deactivate_address] on a well-formed address that is not in the
    handler's set of registered addresses raises, whatever the [dispatch]
    module does with it, and leaves that set as it was. *)
Theorem deactivate_inactive_address_raises (address : pyval) (st : @process Σ D) :
  is_address address = true ->
  address ∉ addresses st ->
  exists e st',
    deactivate_address address st = (Raise e, st')
    /\ addresses st' = addresses st.
Proof.
  intros Ha Hn. rewrite deactivate_address_eq by done.
  destruct (unregister_loopback_handler address st.1) as [[[]|e] reg'].
  - rewrite decide_False by done. by exists (KeyError address), (reg', st.2).
  - by exists e, (reg', st.2).
Qed.

(** C4 (amended).  For a well-formed address that [dispatch] accepts, [on]
    activates the address before the body of the scope runs and calls
    [deactivate_address] when the body ends, whether it returned or raised.
    If the address is then still in the handler's set and [dispatch] lets go of
    it, the exit does not raise: the outcome of the body is passed on and the
    address is no longer in the set.  If the address has left the set during
    the scope, the exit raises. *)
Theorem on_deactivates_on_exit {A} (address : pyval) (ssl : bool)
    (scope_body : M (@process Σ D) A) (st : @process Σ D) (reg1 : registry) :
  is_address address = true ->
  register_loopback_handler address (self_ref st.2) ssl st.1 = (Ok tt, reg1) ->
  let entered : @process Σ D :=
    (reg1, set_registered_addresses (fun s => {[address]} ∪ s) st.2) in
  address ∈ addresses entered
  /\ forall r st2,
       scope_body entered = (r, st2) ->
       (forall reg3,
           address ∈ addresses st2 ->
           unregister_loopback_handler address st2.1 = (Ok tt, reg3) ->
           on address ssl scope_body st
           = (r, (reg3, set_registered_addresses (fun s => s ∖ {[address]}) st2.2))
           /\ address ∉ addresses (on address ssl scope_body st).2)
       /\ (address ∉ addresses st2 ->
           exists e st3, on address ssl scope_body st = (Raise e, st3)).
Proof.
  intros Ha Hreg entered.
  split; [apply elem_of_add|].
  intros r st2 Hbody.
  assert (Hon : on address ssl scope_body st
                = match deactivate_address address st2 with
                  | (Ok _, st3) => (r, st3)
                  | (Raise e, st3) => (Raise e, st3)
                  end).
  { unfold on. unfold bind at 1. rewrite activate_address_eq, Hreg by done.
    unfold try_finally. fold entered. by rewrite Hbody. }
  split.
  - intros reg3 Hin Hun. rewrite Hon, deactivate_address_eq, Hun by done.
    rewrite decide_True by done. split; [done|]. apply not_elem_of_remove.
  - intros Hout. rewrite Hon, deactivate_address_eq by done.
    destruct (unregister_loopback_handler address st2.1) as [[[]|e] reg3].
    + rewrite decide_False by done. eauto.
    + eauto.
Qed.

End ActivationProperties.

(** ** Activation against the modelled table *)

Section SpecDispatch.

Context {Σ : Type}.
Variable policy : unregister_policy.

Lemma spec_activate_eq (address : pyval) (ssl : bool)
    (st : @process Σ (spec_dispatch policy)) :
  is_address address = true ->
  activate_address address ssl st
  = (Ok tt, (<[address := (self_ref st.2, ssl)]> (table st),
             set_registered_addresses (fun s => {[address]} ∪ s) st.2)).
Proof. intros Ha. by rewrite activate_address_eq. Qed.

Lemma spec_deactivate_eq (address : pyval) (st : @process Σ (spec_dispatch policy)) :
  is_address address = true ->
  address ∈ addresses st ->
  is_Some (table st !! address) ->
  deactivate_address address st
  = (Ok tt, (delete address (table st),
             set_registered_addresses (fun s => s ∖ {[address]}) st.2)).
Proof.
  intros Ha Hin [v Hv]. rewrite deactivate_address_eq by done.
  cbn [unregister_loopback_handler spec_dispatch]. unfold spec_unregister.
  fold (table st). rewrite Hv. by rewrite decide_True.
Qed.

Lemma set_registered_addresses_id (self : @FlaskLoopback Σ)
    (f : gset pyval -> gset pyval) :
  f (_registered_addresses self) = _registered_addresses self ->
  set_registered_addresses f self = self.
Proof. destruct self. unfold set_registered_addresses. cbn. by intros ->. Qed.

Lemma set_registered_addresses_compose (self : @FlaskLoopback Σ)
    (f g : gset pyval -> gset pyval) :
  set_registered_addresses g (set_registered_addresses f self)
  = set_registered_addresses (fun s => g (f s)) self.
Proof. reflexivity. Qed.

(** C5.  Against the table modelled from the spec: activating a well-formed
    address that is neither in the table nor in the handler's set and then
    deactivating it returns normally and leaves the table and the handler
    exactly as they were. *)
Theorem activate_then_deactivate_restores (address : pyval) (ssl : bool)
    (st : @process Σ (spec_dispatch policy)) :
  is_address address = true ->
  table st !! address = None ->
  address ∉ addresses st ->
  (activate_address address ssl ;; deactivate_address address) st = (Ok tt, st).
Proof.
  intros Ha Ht Hs. unfold bind. rewrite spec_activate_eq by done.
  rewrite spec_deactivate_eq; [|done|apply elem_of_add|].
  - cbn [fst snd table]. rewrite set_registered_addresses_compose.
    rewrite set_registered_addresses_id by by apply add_then_remove.
    fold (table st). rewrite delete_insert_eq, delete_id by done.
    by destruct st.
  - cbn [table fst]. rewrite lookup_insert_eq. eauto.
Qed.

(** C10.  Against the table modelled from the spec: activating a well-formed
    address twice records it once in the handler's set (the set after the
    second activation is the set after the first), and one deactivation then
    returns normally and leaves the address neither in the handler's set nor
    in the table. *)
Theorem double_activation_collapses (address : pyval) (ssl1 ssl2 : bool)
    (st : @process Σ (spec_dispatch policy)) :
  is_address address = true ->
  exists st1 st2 st3,
    activate_address address ssl1 st = (Ok tt, st1)
    /\ activate_address address ssl2 st1 = (Ok tt, st2)
    /\ addresses st2 = addresses st1
    /\ deactivate_address address st2 = (Ok tt, st3)
    /\ (address ∉ addresses st3)
    /\ table st3 !! address = None.
Proof.
  intros Ha. do 3 eexists.
  split; [by apply spec_activate_eq|].
  split; [by apply spec_activate_eq|].
  split.
  { cbn. apply set_eq. intros x. rewrite !elem_of_union. tauto. }
  split.
  { apply spec_deactivate_eq; [done|apply elem_of_add|].
    cbn [table fst]. rewrite lookup_insert_eq. eauto. }
  split; [apply not_elem_of_remove|].
  cbn [table fst]. apply lookup_delete_eq.
Qed.

Context `{I : SetIter}.

Lemma deactivate_all_loop_spec (fuel : nat) :
  forall st : @process Σ (spec_dispatch policy),
    size (addresses st) < fuel ->
    well_registered st ->
    exists st',
      deactivate_all_loop fuel st = Some (Ok tt, st')
      /\ addresses st' = ∅
      /\ forall a, table st' !! a
                   = if decide (a ∈ addresses st) then None else table st !! a.
Proof.
  induction fuel as [|fuel IH]; intros st Hsz Hwr; [lia|].
  cbn [deactivate_all_loop].
  destruct (set_first (addresses st)) as [a0|] eqn:Hf.
  - apply set_first_elem in Hf.
    destruct (Hwr a0 Hf) as [Ha0 Hin0].
    rewrite spec_deactivate_eq by done.
    match goal with |- context [deactivate_all_loop fuel ?st1] =>
      destruct (IH st1) as (st' & Hl & He & Ht) end.
    + cbn [snd set_registered_addresses _registered_addresses].
      assert (size (addresses st ∖ {[a0]}) < size (addresses st)); [|lia].
      apply subset_size. apply subset_difference_elem_of. done.
    + intros a Hin. cbn in Hin. apply elem_of_difference in Hin as [Hin Hne].
      rewrite elem_of_singleton in Hne.
      destruct (Hwr a Hin) as [Ha Hsome]. split; [done|].
      cbn [table fst]. by rewrite lookup_delete_ne.
    + exists st'. split; [done|]. split; [done|]. intros a. rewrite Ht.
      cbn [table fst snd set_registered_addresses _registered_addresses].
      destruct (decide (a = a0)) as [->|Hne].
      * rewrite decide_False by apply not_elem_of_remove.
        rewrite decide_True by done. apply lookup_delete_eq.
      * rewrite lookup_delete_ne by done.
        destruct (decide (a ∈ addresses st)) as [Hin|Hout].
        -- rewrite decide_True; [done|]. apply elem_of_difference.
           by rewrite elem_of_singleton.
        -- rewrite decide_False; [done|]. rewrite elem_of_difference. tauto.
  - apply set_first_empty in Hf. exists st. split; [done|]. split; [done|].
    intros a. rewrite Hf. by rewrite decide_False by apply not_elem_of_empty.
Qed.

Lemma activate_each_spec (l : list pyval) (ssl : bool) :
  Forall (fun a => is_address a = true) l ->
  forall st : @process Σ (spec_dispatch policy),
    well_registered st ->
    exists st1,
      activate_each l ssl st = (Ok tt, st1)
      /\ addresses st1 = list_to_set l ∪ addresses st
      /\ well_registered st1
      /\ forall a, a ∈ l -> is_Some (table st1 !! a).
Proof.
  induction 1 as [|a0 l Ha0 _ IH]; intros st Hwr.
  - exists st. cbn. split; [done|]. split.
    + apply set_eq. intros x. rewrite elem_of_union, elem_of_empty. tauto.
    + split; [done|]. intros a Hin. by apply elem_of_nil in Hin.
  - cbn [activate_each]. unfold bind. rewrite spec_activate_eq by done.
    match goal with |- context [activate_each l ssl ?st0] =>
      destruct (IH st0) as (st1 & He & Hs & Hwr1 & Hl) end.
    + intros a Hin. cbn in Hin. apply elem_of_union in Hin as [Hin|Hin].
      * apply elem_of_singleton in Hin as ->. split; [done|].
        cbn [table fst]. rewrite lookup_insert_eq. eauto.
      * destruct (Hwr a Hin) as [Ha Hsome]. split; [done|].
        cbn [table fst]. destruct (decide (a0 = a)) as [->|Hne].
        -- rewrite lookup_insert_eq. eauto.
        -- by rewrite lookup_insert_ne.
    + exists st1. split; [done|]. split.
      * rewrite Hs. cbn. apply set_eq. intros x.
        rewrite !elem_of_union. tauto.
      * split; [done|]. intros a Hin. apply elem_of_cons in Hin as [->|Hin].
        -- apply Hwr1. rewrite Hs. apply elem_of_union_r. apply elem_of_add.
        -- by apply Hl.
Qed.

(** C6.  Against the table modelled from the spec: after any number of
    well-formed addresses have been activated on a handler, [deactivate_all]
    returns normally, leaves the handler without a registered address and
    leaves none of those addresses in the table; [deactivate_all] on the
    resulting state (a handler that owns no address) returns normally again
    and changes nothing. *)
Theorem deactivate_all_clears (l : list pyval) (ssl : bool)
    (st : @process Σ (spec_dispatch policy)) :
  Forall (fun a => is_address a = true) l ->
  well_registered st ->
  exists st1 st2,
    activate_each l ssl st = (Ok tt, st1)
    /\ (forall a, a ∈ l -> a ∈ addresses st1 /\ is_Some (table st1 !! a))
    /\ (NoDup l -> addresses st = ∅ -> size (addresses st1) = length l)
    /\ deactivate_all st1 = Some (Ok tt, st2)
    /\ addresses st2 = ∅
    /\ (forall a, a ∈ l -> table st2 !! a = None)
    /\ deactivate_all st2 = Some (Ok tt, st2).
Proof.
  intros Hl Hwr.
  destruct (activate_each_spec l ssl Hl st Hwr) as (st1 & He & Hs & Hwr1 & Ht1).
  destruct (deactivate_all_loop_spec (S (size (addresses st1))) st1)
    as (st2 & Hd & Hempty & Ht2); [lia|done|].
  exists st1, st2. split; [done|].
  assert (Hin : forall a, a ∈ l -> a ∈ addresses st1).
  { intros a Ha. rewrite Hs. apply elem_of_union_l. by apply elem_of_list_to_set. }
  split; [intros a Ha; split; [by apply Hin | by apply Ht1]|].
  split.
  { intros Hnd H0. rewrite Hs, H0, (right_id_L ∅ (∪)).
    by apply size_list_to_set. }
  split; [exact Hd|]. split; [done|].
  split.
  { intros a Ha. rewrite Ht2. by rewrite decide_True by by apply Hin. }
  unfold deactivate_all. rewrite Hempty, size_empty. cbn [deactivate_all_loop].
  destruct (set_first (addresses st2)) as [a|] eqn:Hf; [|done].
  apply set_first_elem in Hf. rewrite Hempty in Hf. by apply elem_of_empty in Hf.
Qed.

End SpecDispatch.

(** ** The claims at the worked instances *)

(** C1: the path the spec gives for its example URL is not the one built. *)
Lemma example_path_keeps_api_segment :
  application_path "http://example.com/api/widgets?x=1" = Ok "/api/widgets?x=1"
  /\ application_path "http://example.com/api/widgets?x=1" <> Ok "/widgets?x=1".
Proof. split; [reflexivity | discriminate]. Qed.

Lemma handle_request_path_witness :
  application_path (url_str demo_url) = Ok "/api/widgets?x=1"
  /\ forall path kwargs,
       Opened path kwargs
         ∈ trace (demo_handle_request
                    (demo_loopback (counting_client demo_plain_response) [plain_handler])
                    demo_url demo_request demo_world).2 ->
       Opened path kwargs ∈ trace demo_world \/ path = "/api/widgets?x=1".
Proof.
  apply (handle_request_path demo_responses demo_gzip_decompress "localhost"
           demo_cookiejar_extract _ demo_url demo_request demo_world
           "http:" "" "example.com" "api/widgets?x=1"); reflexivity.
Defined.

Lemma plain_handler_quiet (request : Request) :
  enters_with exits_quietly request plain_handler.
Proof.
  intros σ. do 2 eexists. split; [reflexivity|].
  intros σ'. by eexists _, _.
Qed.

Lemma plain_handler_transparent (request : Request) :
  enters_with transparent request plain_handler.
Proof.
  intros σ. do 2 eexists. split; [reflexivity|].
  intros exc σ'. by eexists.
Qed.

(** C2: a scope entered earlier raises on exit, and the dispatch raises
    instead of returning the 403 response. *)
Lemma exit_raise_defeats_short_circuit :
  forbidding_handler demo_request 0
  = (Raise (CustomHTTPResponse
              (CustomHTTPResponse_init demo_responses demo_request 403)), 0)
  /\ (demo_handle_request
        (demo_loopback (counting_client demo_plain_response)
                       [raising_exit_handler; forbidding_handler])
        demo_url demo_request demo_world).1
     = Raise (OtherError "RuntimeError").
Proof. split; reflexivity. Qed.

Lemma short_circuit_witness :
  exists response w',
    demo_handle_request
      (demo_loopback (counting_client demo_plain_response)
                     [plain_handler; forbidding_handler; plain_handler])
      demo_url demo_request demo_world
    = (Ok (Some response), w')
    /\ response_status_code response = Some 403%Z
    /\ response_reason response = Some "Forbidden"
    /\ response_url response = Some "http://example.com/api/widgets?x=1"
    /\ response_request response = Some demo_request
    /\ trace w' = [Entered 0; Exited 0]
    /\ collab w' = 0.
Proof.
  destruct (short_circuit_returns_custom_response demo_responses
              demo_gzip_decompress "localhost" demo_cookiejar_extract
              (demo_loopback (counting_client demo_plain_response)
                             [plain_handler; forbidding_handler; plain_handler])
              demo_url demo_request demo_world
              [plain_handler] [plain_handler] forbidding_handler 403)
    as (response & w' & Hr & Hc & Hreason & Hu & Hreq & Ht & _).
  - discriminate.
  - reflexivity.
  - constructor; [apply plain_handler_quiet | constructor].
  - intros σ. by eexists.
  - exists response, w'. do 5 (split; [assumption|]). split; [exact Ht|].
    change (demo_handle_request
              (demo_loopback (counting_client demo_plain_response)
                             [plain_handler; forbidding_handler; plain_handler])
              demo_url demo_request demo_world = (Ok (Some response), w')) in Hr.
    vm_compute in Hr. injection Hr as _ Hw. by rewrite <- Hw.
Defined.

(** C3: a scope that swallows the application's exception; the dispatch
    returns [None] instead of raising it. *)
Lemma swallowing_scope_hides_application_error :
  failing_client (OtherError "boom") "/api/widgets?x=1"
    {| kw_method := "GET"; kw_headers := [("Accept", "*/*")]; kw_data := None;
       kw_remote_addr := "localhost"; kw_base_url := "http://example.com" |} 0
  = (Raise (OtherError "boom"), 1)
  /\ (demo_handle_request
        (demo_loopback (failing_client (OtherError "boom")) [swallowing_handler])
        demo_url demo_request demo_world).1
     = Ok None.
Proof. split; reflexivity. Qed.

Lemma application_error_witness :
  (demo_handle_request
     (demo_loopback (failing_client (OtherError "boom"))
                    [plain_handler; plain_handler])
     demo_url demo_request demo_world).1
  = Raise (OtherError "boom").
Proof.
  destruct (scopes_exited_in_reverse_order demo_responses demo_gzip_decompress
              "localhost" demo_cookiejar_extract
              (demo_loopback (failing_client (OtherError "boom"))
                             [plain_handler; plain_handler])
              demo_url demo_request demo_world) as [_ Hraise].
  apply Hraise.
  - discriminate.
  - repeat constructor; apply plain_handler_transparent.
  - intros path kwargs σ. by eexists.
Defined.

Lemma gzip_content_witness :
  exists returned w',
    demo_handle_request
      (demo_loopback (counting_client demo_gzip_response) [plain_handler])
      demo_url demo_request demo_world
    = (Ok (Some returned), w')
    /\ response__content returned = Some [Byte.x68; Byte.x69].
Proof.
  destruct (content_is_decompressed_body demo_responses demo_gzip_decompress
              "localhost" demo_cookiejar_extract
              (demo_loopback (counting_client demo_gzip_response) [plain_handler])
              demo_url demo_request demo_world demo_gzip_response)
    as [Hgzip _].
  - discriminate.
  - repeat constructor; apply plain_handler_quiet.
  - intros path kwargs σ. by eexists.
  - apply Hgzip; reflexivity.
Defined.

Lemma empty_body_reader_witness :
  (exists returned w' raw,
      demo_handle_request
        (demo_loopback (counting_client demo_empty_response) [plain_handler])
        demo_url demo_request demo_world
      = (Ok (Some returned), w')
      /\ response_raw returned = Some raw
      /\ hr_body raw = Some (new_IOReader []))
  /\ IOReader_read None (new_IOReader [])
     = (Ok [], {| io_buf := []; io_pos := 0; io_closed := true |})
  /\ IOReader_read (Some (2 ^ 70)%Z)
       {| io_buf := []; io_pos := 0; io_closed := true |}
     = (Ok [], {| io_buf := []; io_pos := 0; io_closed := true |}).
Proof.
  destruct (raw_reader_is_socket_like demo_responses demo_gzip_decompress
              "localhost" demo_cookiejar_extract
              (demo_loopback (counting_client demo_empty_response) [plain_handler])
              demo_url demo_request demo_world demo_empty_response [])
    as (Hraw & _ & _ & _ & _ & Hempty).
  - discriminate.
  - repeat constructor; apply plain_handler_quiet.
  - intros path kwargs σ. by eexists.
  - discriminate.
  - reflexivity.
  - split; [exact Hraw|]. exact (Hempty eq_refl None (Some (2 ^ 70)%Z) eq_refl).
Defined.

(** C4: the body deactivates the address itself and returns normally; the
    exit of [on] then raises, under either policy of the modelled table. *)
Lemma on_raises_when_body_deactivates :
  (deactivate_address demo_address
     (activate_address demo_address false (demo_process NotRegisteredRaises)).2).1
  = Ok tt
  /\ (on demo_address false (deactivate_address demo_address)
        (demo_process NotRegisteredRaises)).1
     = Raise (KeyError demo_address)
  /\ (on demo_address false (deactivate_address demo_address)
        (demo_process NotRegisteredIgnored)).1
     = Raise (KeyError demo_address).
Proof. repeat split; vm_compute; reflexivity. Qed.

Lemma on_exception_path_witness :
  (on demo_address false (raise (OtherError "boom"))
      (demo_process NotRegisteredRaises)).1
  = Raise (A := unit) (OtherError "boom")
  /\ demo_address
     ∉ addresses (on (A := unit) demo_address false (raise (OtherError "boom"))
                     (demo_process NotRegisteredRaises)).2.
Proof.
  destruct (on_deactivates_on_exit (D := spec_dispatch NotRegisteredRaises)
              (A := unit) demo_address false (raise (OtherError "boom"))
              (demo_process NotRegisteredRaises)
              (<[demo_address := (1, false)]> ∅) eq_refl eq_refl)
    as [_ Hexit].
  destruct (Hexit (Raise (OtherError "boom")) _ eq_refl) as [Hstill _].
  destruct (Hstill ∅) as [Hon Hout].
  - apply elem_of_add.
  - vm_compute. reflexivity.
  - split; [by rewrite Hon | exact Hout].
Defined.

Lemma demo_process_well_registered (policy : unregister_policy) :
  well_registered (demo_process policy).
Proof. intros a Hin. by apply elem_of_empty in Hin. Qed.

Lemma round_trip_witness :
  (activate_address demo_address true ;; deactivate_address demo_address)
    (demo_process NotRegisteredRaises)
  = (Ok tt, demo_process NotRegisteredRaises).
Proof.
  apply (activate_then_deactivate_restores NotRegisteredRaises).
  - reflexivity.
  - reflexivity.
  - apply not_elem_of_empty.
Defined.

Lemma deactivate_all_witness :
  exists st1 st2,
    activate_each [demo_address; demo_address2] false
      (demo_process NotRegisteredRaises)
    = (Ok tt, st1)
    /\ size (addresses st1) = 2
    /\ deactivate_all (I := elements_iter) st1 = Some (Ok tt, st2)
    /\ addresses st2 = ∅
    /\ table st2 !! demo_address = None
    /\ table st2 !! demo_address2 = None
    /\ deactivate_all (I := elements_iter) st2 = Some (Ok tt, st2).
Proof.
  destruct (deactivate_all_clears NotRegisteredRaises (I := elements_iter)
              [demo_address; demo_address2] false
              (demo_process NotRegisteredRaises))
    as (st1 & st2 & Hact & _ & Hsize & Hall & Hempty & Hgone & Hagain).
  - repeat constructor.
  - apply demo_process_well_registered.
  - exists st1, st2. split; [exact Hact|]. split.
    { apply Hsize; [|reflexivity].
      repeat constructor; rewrite ?elem_of_cons, ?elem_of_nil;
        intros H; decompose [or] H; discriminate || done. }
    split; [exact Hall|]. split; [exact Hempty|].
    split; [apply Hgone; apply elem_of_cons; by left|].
    split; [apply Hgone; apply elem_of_cons; right; apply elem_of_cons; by left|].
    exact Hagain.
Defined.

Lemma deactivate_inactive_witness :
  exists e st',
    deactivate_address demo_address (demo_process NotRegisteredIgnored)
    = (Raise e, st')
    /\ addresses st' = addresses (demo_process NotRegisteredIgnored).
Proof.
  apply (deactivate_inactive_address_raises (D := spec_dispatch NotRegisteredIgnored)).
  - reflexivity.
  - apply not_elem_of_empty.
Defined.

Lemma double_activation_witness :
  exists st1 st2 st3,
    activate_address demo_address false (demo_process NotRegisteredRaises)
    = (Ok tt, st1)
    /\ activate_address demo_address true st1 = (Ok tt, st2)
    /\ addresses st2 = addresses st1
    /\ deactivate_address demo_address st2 = (Ok tt, st3)
    /\ (demo_address ∉ addresses st3)
    /\ table st3 !! demo_address = None.
Proof.
  apply (double_activation_collapses NotRegisteredRaises). reflexivity.
Defined.

(** * Further properties *)

(** ** The reader, read after read *)

(** X1.  A read never alters the buffer and never reopens a closed reader.
    When it returns, it hands out a prefix of the unread bytes and advances
    the position by exactly what it handed out; with a size that is not
    negative it hands out at most that many bytes.  It raises in one case
    only: the reader is open and the size does not fit a [Py_ssize_t]; the
    error is then [OverflowError] and the reader is left as it was.  So a read
    returns exactly when the reader is closed or the size fits. *)
Theorem read_hands_out_a_prefix (size : option Z) (r : IOReader) :
  io_buf (IOReader_read size r).2 = io_buf r
  /\ (io_closed r = true -> io_closed (IOReader_read size r).2 = true)
  /\ match (IOReader_read size r).1 with
     | Ok out =>
         (io_closed r = true \/ fits_ssize_t size = true)
         /\ out = take (length out) (drop (io_pos r) (io_buf r))
         /\ io_pos (IOReader_read size r).2 = io_pos r + length out
         /\ (forall z, size = Some z -> (0 <= z)%Z -> length out <= Z.to_nat z)
     | Raise e =>
         io_closed r = false
         /\ fits_ssize_t size = false
         /\ e = OverflowError "cannot fit 'int' into an index-sized integer"
         /\ (IOReader_read size r).2 = r
     end.
Proof.
  destruct (io_closed r) eqn:Hc.
  - rewrite IOReader_read_closed by done. cbn.
    rewrite Nat.add_0_r. repeat split; auto with lia.
  - destruct (fits_ssize_t size) eqn:Hf.
    + rewrite IOReader_read_open by done. cbn [fst snd io_pos io_buf io_closed].
      set (avail := drop (io_pos r) (io_buf r)).
      match goal with |- context [take ?k avail] => set (n := k) end.
      assert (Hn : n <= length avail).
      { subst n. destruct size as [z|]; [destruct (z <? 0)%Z|]; lia. }
      assert (Hlen : length (take n avail) = n) by (rewrite length_take; lia).
      rewrite Hlen. repeat split; auto.
      * discriminate.
      * intros z -> Hz. subst n. rewrite (proj2 (Z.ltb_ge z 0)) by done. lia.
    + rewrite IOReader_read_overflow by done. cbn [fst snd].
      repeat split; auto. discriminate.
Qed.

(** X2.  Two reads in a row lose nothing: when the first read of an open
    reader hands out something, a following read to the end hands out the
    rest, and the two pieces together are the bytes that were unread. *)
Theorem consecutive_reads_lose_nothing (size : option Z) (r : IOReader)
    (out1 : bytes) :
  io_closed r = false ->
  (IOReader_read size r).1 = Ok out1 ->
  out1 <> [] ->
  exists out2,
    (IOReader_read None (IOReader_read size r).2).1 = Ok out2
    /\ out1 ++ out2 = drop (io_pos r) (io_buf r).
Proof.
  intros Hc H1 Hne.
  assert (Hf : fits_ssize_t size = true).
  { destruct (fits_ssize_t size) eqn:Hf; [done|].
    by rewrite IOReader_read_overflow in H1. }
  rewrite (IOReader_read_open size r Hc Hf) in H1 |- *.
  cbn [fst snd] in *. injection H1 as H1.
  set (avail := drop (io_pos r) (io_buf r)) in *.
  match type of H1 with take ?k _ = _ => set (n := k) in * end.
  assert (Hopen : bytes_is_empty (take n avail) = false)
    by (rewrite H1; by destruct out1).
  rewrite Hopen. rewrite IOReader_read_open by done.
  cbn [fst io_pos io_buf]. eexists. split; [reflexivity|].
  rewrite firstn_all, <- H1. rewrite <- drop_drop. apply take_drop.
Qed.

(** X3.  A read of zero bytes closes the reader, unread bytes or not: it
    hands out the empty byte string, so the reader is marked closed and every
    later read hands out the empty byte string as well. *)
Theorem zero_size_read_closes (r : IOReader) (size : option Z) :
  (IOReader_read (Some 0%Z) r).1 = Ok []
  /\ io_closed (IOReader_read (Some 0%Z) r).2 = true
  /\ (IOReader_read size (IOReader_read (Some 0%Z) r).2).1 = Ok [].
Proof.
  assert (H0 : (IOReader_read (Some 0%Z) r).1 = Ok []
               /\ io_closed (IOReader_read (Some 0%Z) r).2 = true).
  { destruct (io_closed r) eqn:Hc.
    - by rewrite IOReader_read_closed.
    - rewrite IOReader_read_open by done. cbn. by rewrite take_0. }
  destruct H0 as [Hout Hcl]. split; [done|]. split; [done|].
  by rewrite IOReader_read_closed.
Qed.

(** ** The application path, short URLs *)

Lemma str_split_whole (sep : ascii) (n : nat) (s : string) :
  str_contains sep s = false -> str_split sep n s = [s].
Proof.
  induction s as [|c s IH]; intros Hc; [done|].
  cbn in Hc. apply orb_false_elim in Hc as [Hc1 Hc2].
  destruct n as [|m]; [done|]. cbn [str_split]. rewrite Hc1.
  by rewrite (IH Hc2).
Qed.

Lemma str_split_last_suffix (sep : ascii) (s : string) :
  forall n, exists head tail,
    last (str_split sep n s) = Some tail
    /\ s = head +:+ tail
    /\ (length (str_split sep n s) = 1 -> head = "").
Proof.
  induction s as [|c s IH]; intros n.
  - exists "", "". by destruct n.
  - destruct n as [|m]; [by exists "", (String c s)|].
    cbn [str_split]. destruct (Ascii.eqb c sep).
    + destruct (IH m) as (head & tail & Hl & Hs & _).
      exists (String c head), tail. split; [|split].
      * pose proof (str_split_nonempty sep m s) as Hne.
        destruct (str_split sep m s) as [|p ps]; [done|]. exact Hl.
      * change (String c s = String c (head +:+ tail)). by rewrite <- Hs.
      * pose proof (str_split_nonempty sep m s) as Hne.
        destruct (str_split sep m s); [done|]. cbn. lia.
    + destruct (IH (S m)) as (head & tail & Hl & Hs & H1).
      destruct (str_split sep (S m) s) as [|piece pieces] eqn:Hsp.
      { by apply str_split_nonempty in Hsp. }
      destruct pieces as [|p ps].
      * cbn in Hl. injection Hl as <-. rewrite (H1 eq_refl) in Hs.
        change ("" +:+ piece) with piece in Hs.
        exists "", (String c piece). split; [done|]. split; [|done].
        change (String c s = String c piece). by rewrite Hs.
      * exists (String c head), tail. split; [exact Hl|]. split.
        -- change (String c s = String c (head +:+ tail)). by rewrite <- Hs.
        -- cbn. lia.
Qed.

(** X4.  The path is built for every URL string, with no [IndexError]: it is
    ['/'] followed by a suffix of the URL string. *)
Theorem application_path_is_a_suffix (url : string) :
  exists head tail,
    application_path url = Ok ("/" +:+ tail) /\ url = head +:+ tail.
Proof.
  destruct (str_split_last_suffix "/" url 3) as (head & tail & Hl & Hs & _).
  exists head, tail. unfold application_path. by rewrite Hl.
Qed.

(** X5.  A URL string with fewer than three ['/'] has no path of its own, and
    the path built is ['/'] followed by its last piece: for [scheme://host]
    this is ['/'] followed by the host. *)
Theorem application_path_of_short_url (s1 s2 s3 : string) :
  str_contains "/" s1 = false ->
  str_contains "/" s2 = false ->
  str_contains "/" s3 = false ->
  application_path (s1 +:+ "/" +:+ s2 +:+ "/" +:+ s3) = Ok ("/" +:+ s3)
  /\ application_path (s2 +:+ "/" +:+ s3) = Ok ("/" +:+ s3)
  /\ application_path s3 = Ok ("/" +:+ s3).
Proof.
  intros H1 H2 H3. unfold application_path.
  change ("/" +:+ s2 +:+ "/" +:+ s3) with (String "/" (s2 +:+ String "/" s3)).
  change ("/" +:+ s3) with (String "/" s3).
  rewrite !str_split_cut by done. rewrite !str_split_whole by done. done.
Qed.

(** ** More on the dispatch of one request *)

Section DispatchFrames.

Context {Σ : Type}.
Variable responses : gmap Z string.
Variable gzip_decompress : bytes -> result bytes.
Variable getfqdn : string.
Variable cookiejar_extract :
  (string -> option (list string) -> option (list string)) ->
  Request -> CookieJar -> CookieJar.

Lemma build_open_kwargs_eq (url : URL) (request : Request) (w : @world Σ) :
  build_open_kwargs getfqdn url request w
  = (Ok (kwargs_for getfqdn url request w),
     {| collab := collab w; trace := trace w;
        _hostname := Some (hostname_in getfqdn w);
        session_cookies := session_cookies w |}).
Proof.
  unfold build_open_kwargs, _get_hostname, kwargs_for, hostname_in. unfold_M.
  destruct w as [c t [name|] s]; reflexivity.
Qed.

Lemma handle_request_unfold (self : FlaskLoopback) (url : URL)
    (request : Request) (w : @world Σ) :
  url_scheme url <> "" ->
  exists path,
    application_path (url_str url) = Ok path
    /\ handle_request responses gzip_decompress getfqdn cookiejar_extract
         self url request w
       = with_ExitStack
           (with_body responses gzip_decompress cookiejar_extract
              self url request path (kwargs_for getfqdn url request w))
           {| collab := collab w; trace := trace w;
              _hostname := Some (hostname_in getfqdn w);
              session_cookies := session_cookies w |}.
Proof.
  intros Hs. unfold handle_request. unfold_M.
  destruct (String.eqb_spec (url_scheme url) ""); [done|]. unfold_M.
  destruct (application_path_ok (url_str url)) as [path Hp]. rewrite Hp. cbn [negb].
  rewrite build_open_kwargs_eq. by exists path.
Qed.

Lemma in_collab_frame {A} (m : M Σ A) (w : @world Σ) :
  same_frame w (in_collab m w).2.
Proof. unfold in_collab. by destruct (m (collab w)). Qed.

Lemma same_frame_trans (w1 w2 w3 : @world Σ) :
  same_frame w1 w2 -> same_frame w2 w3 -> same_frame w1 w3.
Proof. intros [H1 H2] [H3 H4]. split; congruence. Qed.

Lemma enter_contexts_frame (request : Request) (handlers : list handler) :
  forall (i : nat) (stack : exit_stack) (w : @world Σ),
    same_frame w (enter_contexts i handlers request stack w).2.
Proof.
  induction handlers as [|h handlers IH]; intros i stack w; [done|].
  rewrite enter_contexts_cons.
  pose proof (in_collab_frame (h request) w) as Hf.
  destruct (in_collab (h request) w) as [[cm|e] w']; cbn [snd] in Hf.
  - eapply same_frame_trans; [exact Hf|].
    eapply same_frame_trans; [|apply IH]. done.
  - by destruct e.
Qed.

Lemma run_exit_callbacks_frame (stack : exit_stack) :
  forall (u : unwinding) (w : @world Σ),
    same_frame w (run_exit_callbacks stack u w).2.
Proof.
  induction stack as [|[i cb] stack IH]; intros u w; [done|].
  rewrite run_exit_callbacks_cons.
  match goal with |- context [in_collab ?m ?w1] =>
    pose proof (in_collab_frame m w1) as Hf;
    destruct (in_collab m w1) as [[[]|e] w'] end; cbn [snd] in Hf;
    (eapply same_frame_trans; [|apply IH]); exact Hf.
Qed.

Lemma with_ExitStack_frame {A}
    (body : @world Σ -> (result A * exit_stack) * @world Σ) (w : @world Σ) :
  same_frame (body w).2 (with_ExitStack body w).2.
Proof.
  unfold with_ExitStack. destruct (body w) as [[outcome stack] w1]; cbn [fst snd].
  match goal with |- context [run_exit_callbacks stack ?u w1] =>
    pose proof (run_exit_callbacks_frame stack u w1) as Hf;
    destruct (run_exit_callbacks stack u w1) as [u' w2] end.
  cbn [snd] in Hf.
  by destruct (pending_raise u'), (exc_details u'), outcome, (suppressed_exc u').
Qed.

Lemma open_and_translate_hostname (self : FlaskLoopback) (url : URL)
    (request : Request) (path : string) (kwargs : open_kwargs) (w : @world Σ) :
  _hostname (open_and_translate responses gzip_decompress cookiejar_extract
               self url request path kwargs w).2 = _hostname w.
Proof.
  unfold open_and_translate, _extract_cookies, log. unfold_M. cbn.
  match goal with |- context [in_collab ?m ?w1] =>
    pose proof (in_collab_frame m w1) as [Hf _];
    destruct (in_collab m w1) as [[resp|e] w'] end; cbn in Hf |- *; [|done].
  destruct (bool_decide (headers_get _ _ = _)); cbn;
    [destruct (gzip_decompress _)|]; cbn; done.
Qed.

Lemma with_body_hostname (self : FlaskLoopback) (url : URL)
    (request : Request) (path : string) (kwargs : open_kwargs) (w : @world Σ) :
  _hostname (with_body responses gzip_decompress cookiejar_extract
               self url request path kwargs w).2 = _hostname w.
Proof.
  unfold with_body.
  pose proof (enter_contexts_frame request (_request_context_handlers self) 0 [] w)
    as [Hf _].
  destruct (enter_contexts 0 _ request [] w) as [[[[response|]|e] stack] w1];
    cbn [snd] in *; try done.
  pose proof (open_and_translate_hostname self url request path kwargs w1) as Ho.
  destruct (open_and_translate _ _ _ self url request path kwargs w1) as [r w2].
  cbn [snd] in *. congruence.
Qed.

Lemma empty_scheme_is_refused_aux (self : FlaskLoopback) (url : URL)
    (request : Request) (w : @world Σ) :
  url_scheme url = "" ->
  handle_request responses gzip_decompress getfqdn cookiejar_extract
    self url request w
  = (Raise (AssertionError ""), w).
Proof. intros Hs. unfold handle_request. unfold_M. by rewrite Hs. Qed.

(** X6.  A URL without a scheme is refused before anything else happens: the
    dispatch raises [AssertionError] and leaves the whole state as it was (no
    handler is entered, the application is not opened, the hostname is not
    looked up). *)
Theorem empty_scheme_is_refused (self : FlaskLoopback) (url : URL)
    (request : Request) (w : @world Σ) :
  url_scheme url = "" ->
  handle_request responses gzip_decompress getfqdn cookiejar_extract
    self url request w
  = (Raise (AssertionError ""), w).
Proof. apply empty_scheme_is_refused_aux. Qed.

(** X7.  The hostname is looked up once: a dispatch leaves a cached hostname
    as it is, whatever [socket.getfqdn] would answer now, and fills an empty
    cache with that answer unless the URL is refused for its scheme. *)
Theorem hostname_is_cached (self : FlaskLoopback) (url : URL)
    (request : Request) (w : @world Σ) :
  _hostname (handle_request responses gzip_decompress getfqdn cookiejar_extract
               self url request w).2
  = match _hostname w with
    | Some name => Some name
    | None => if String.eqb (url_scheme url) "" then None else Some getfqdn
    end.
Proof.
  destruct (String.eqb_spec (url_scheme url) "") as [Hs|Hs].
  - rewrite empty_scheme_is_refused_aux by done. cbn [snd].
    by destruct (_hostname w).
  - destruct (handle_request_unfold self url request w Hs) as (path & _ & ->).
    destruct (with_ExitStack_frame
                (with_body responses gzip_decompress cookiejar_extract
                   self url request path (kwargs_for getfqdn url request w))
                {| collab := collab w; trace := trace w;
                   _hostname := Some (hostname_in getfqdn w);
                   session_cookies := session_cookies w |}) as [-> _].
    rewrite with_body_hostname. cbn. unfold hostname_in.
    by destruct (_hostname w).
Qed.

End DispatchFrames.

(** ** Header collections *)

Lemma headers_get_set (name k v : string) (h : headers) :
  headers_get name (headers_set k v h)
  = if String.eqb (str_lower k) (str_lower name) then Some v
    else headers_get name h.
Proof.
  induction h as [|[k' v'] h IH]; [done|]. cbn [headers_set headers_get].
  destruct (String.eqb_spec (str_lower k') (str_lower k)) as [Hk|Hk];
    cbn [headers_get].
  - rewrite Hk. by destruct (String.eqb (str_lower k) (str_lower name)).
  - rewrite IH.
    destruct (String.eqb_spec (str_lower k') (str_lower name)) as [Hn|Hn];
      [|done].
    destruct (String.eqb_spec (str_lower k) (str_lower name)); [congruence|done].
Qed.

Lemma headers_get_app (name : string) (h1 h2 : headers) :
  headers_get name (h1 ++ h2)
  = match headers_get name h1 with
    | Some v => Some v
    | None => headers_get name h2
    end.
Proof.
  induction h1 as [|[k v] h1 IH]; [done|]. cbn [app headers_get].
  by destruct (String.eqb (str_lower k) (str_lower name)).
Qed.

Lemma headers_get_update (name : string) (items : headers) :
  forall h,
    headers_get name (headers_update items h)
    = match headers_get name (rev items) with
      | Some v => Some v
      | None => headers_get name h
      end.
Proof.
  unfold headers_update.
  induction items as [|[k v] items IH]; intros h; [done|].
  cbn [fold_left rev fst snd]. rewrite IH, headers_get_app, headers_get_set.
  cbn [headers_get]. destruct (headers_get name (rev items)); [done|].
  by destruct (String.eqb (str_lower k) (str_lower name)).
Qed.

Lemma header_names_set (k v : string) (h : headers) :
  header_names (headers_set k v h)
  = if decide (str_lower k ∈ header_names h) then header_names h
    else header_names h ++ [str_lower k].
Proof.
  unfold header_names.
  induction h as [|[k' v'] h IH]; [done|]. cbn [headers_set fmap list_fmap fst].
  destruct (String.eqb_spec (str_lower k') (str_lower k)) as [Hk|Hk].
  - cbn [fmap list_fmap fst]. rewrite decide_True by (rewrite Hk; left).
    by rewrite Hk.
  - cbn [fmap list_fmap fst].
    fold (@fmap list _ _ _ (fun kv : string * string => str_lower kv.1)).
    rewrite IH. destruct (decide (str_lower k ∈ _)) as [Hin|Hout].
    + by rewrite decide_True by by right.
    + rewrite decide_False; [done|]. rewrite elem_of_cons. intros [Heq|Hin]; auto.
Qed.

Lemma header_names_update_NoDup (items : headers) :
  forall h, NoDup (header_names h) -> NoDup (header_names (headers_update items h)).
Proof.
  unfold headers_update.
  induction items as [|[k v] items IH]; intros h Hnd; [done|].
  cbn [fold_left fst snd]. apply IH. rewrite header_names_set.
  destruct (decide _) as [Hin|Hout]; [done|].
  apply NoDup_app. split; [done|]. split.
  - intros x Hx Hx'. apply list_elem_of_singleton in Hx'. by subst.
  - apply NoDup_singleton.
Qed.

(** ** What the application is opened with, and what comes back *)

Section DispatchMore.

Context {Σ : Type}.
Variable responses : gmap Z string.
Variable gzip_decompress : bytes -> result bytes.
Variable getfqdn : string.
Variable cookiejar_extract :
  (string -> option (list string) -> option (list string)) ->
  Request -> CookieJar -> CookieJar.

(** X8.  Whenever a dispatch opens the application, it does so with the path
    built from the URL string, the method in upper case, the headers and the
    body of the request, the cached hostname (or [socket.getfqdn]'s answer
    when none is cached) as remote address, and [scheme://netloc] as base
    URL. *)
Theorem application_is_opened_with (self : FlaskLoopback) (url : URL)
    (request : Request) (w : @world Σ) (path : string) (kwargs : open_kwargs) :
  Opened path kwargs
    ∈ trace (handle_request responses gzip_decompress getfqdn cookiejar_extract
               self url request w).2 ->
  Opened path kwargs ∈ trace w
  \/ (application_path (url_str url) = Ok path
      /\ kwargs = {| kw_method := str_upper (req_method request);
                     kw_headers := req_headers request;
                     kw_data := request_data_of request;
                     kw_remote_addr := default getfqdn (_hostname w);
                     kw_base_url := url_scheme url +:+ "://" +:+ url_netloc url |}).
Proof.
  intros Hin. destruct (String.eqb_spec (url_scheme url) "") as [Hs|Hs].
  { rewrite empty_scheme_is_refused_aux in Hin by done. by left. }
  destruct (handle_request_unfold responses gzip_decompress getfqdn
              cookiejar_extract self url request w Hs) as (path' & Hp & Heq).
  rewrite Heq, with_ExitStack_trace in Hin. unfold with_body in Hin.
  match type of Hin with context [enter_contexts 0 ?hs request [] ?w0] =>
    destruct (enter_contexts_trace request hs 0 [] w0) as (k & _ & Htr & _);
    destruct (enter_contexts 0 hs request [] w0)
      as [[[[response|]|e] stack] w1] end; cbn [fst snd trace] in *.
  2: { pose proof (open_and_translate_trace responses gzip_decompress
                     cookiejar_extract self url request path'
                     (kwargs_for getfqdn url request w) w1) as Ho.
       destruct (open_and_translate _ _ _ self url request path' _ w1) as [r w2].
       cbn [fst snd] in *. rewrite Ho, Htr, !elem_of_app in Hin.
       destruct Hin as [[[Hin|Hin]|Hin]|Hin]; [by left| | |].
       - apply list_elem_of_fmap in Hin as (i & Hi & _). discriminate.
       - apply list_elem_of_singleton in Hin. injection Hin as -> ->. by right.
       - apply list_elem_of_fmap in Hin as (i & Hi & _). discriminate. }
  all: rewrite Htr, !elem_of_app in Hin;
    destruct Hin as [[Hin|Hin]|Hin]; [by left| |];
    apply list_elem_of_fmap in Hin as (i & Hi & _); discriminate.
Qed.

(** X9.  A handler that raises anything but [CustomHTTPResponse] while it is
    entered ends the dispatch with that exception: provided the scopes
    entered before it neither swallow nor raise on exit, those scopes are
    exited in reverse order, the handlers after it are not entered and the
    application is not opened. *)
Theorem refusing_handler_ends_dispatch (self : FlaskLoopback) (url : URL)
    (request : Request) (w : @world Σ) (before after : list handler)
    (h : handler) (e : exn) :
  url_scheme url <> "" ->
  _request_context_handlers self = before ++ h :: after ->
  Forall (enters_with transparent request) before ->
  refuses h request e ->
  not_custom e ->
  exists w',
    handle_request responses gzip_decompress getfqdn cookiejar_extract
      self url request w = (Raise e, w')
    /\ trace w' = trace w ++ (Entered <$> seq 0 (length before))
                          ++ (Exited <$> rev (seq 0 (length before))).
Proof.
  intros Hs Hhs Hb Hh Hnc.
  destruct (handle_request_eq responses gzip_decompress getfqdn cookiejar_extract
              self url request w Hs) as (path & kwargs & w0 & _ & Ht0 & ->).
  destruct (enter_contexts_app transparent request before (h :: after) Hb 0 [] w0)
    as (stack & w1 & He & Hst & Hix & Ht1); [constructor|].
  rewrite enter_contexts_cons in He.
  destruct (Hh (collab w1)) as [σ' Hm]. rewrite (in_collab_eq _ _ _ _ Hm) in He.
  assert (He' : enter_contexts 0 (before ++ h :: after) request [] w0
                = ((Raise e, stack),
                   {| collab := σ'; trace := trace w1; _hostname := _hostname w1;
                      session_cookies := session_cookies w1 |}))
    by (rewrite He; by destruct e).
  unfold with_ExitStack, with_body. rewrite Hhs, He'. cbn [fst snd].
  match goal with |- context [run_exit_callbacks stack ?u ?w2] =>
    pose proof (run_exit_callbacks_trace stack u w2) as Ht2;
    destruct (run_exit_callbacks_transparent stack Hst u w2) as (w3 & Hr) end.
  rewrite Hr in Ht2 |- *. cbn [fst snd pending_raise suppressed_exc trace] in *.
  exists w3. split; [done|].
  rewrite Ht2, Ht1, Ht0, Hix, app_nil_r. by rewrite <- app_assoc.
Qed.

Lemma open_and_translate_gzip_fails (self : FlaskLoopback) (url : URL)
    (request : Request) (path : string) (kwargs : open_kwargs) (w : @world Σ)
    (resp : AppResponse) (e : exn) :
  answers (_test_client self) resp ->
  declares_gzip resp ->
  gzip_decompress (app_data resp) = Raise e ->
  (open_and_translate responses gzip_decompress cookiejar_extract
     self url request path kwargs w).1 = Raise e
  /\ session_cookies (open_and_translate responses gzip_decompress cookiejar_extract
                        self url request path kwargs w).2 = session_cookies w.
Proof.
  intros Ha Hg Hz. unfold open_and_translate. unfold_M. cbn [log modify].
  match goal with |- context [in_collab _ ?w1] =>
    destruct (Ha path kwargs (collab w1)) as [σ' Hm] end.
  rewrite (in_collab_eq _ _ _ _ Hm). cbn [bool_decide decide_rel].
  unfold declares_gzip in Hg. rewrite (bool_decide_eq_true_2 _ Hg).
  by rewrite Hz.
Qed.

(** X10.  When the application's response declares gzip and its body does not
    decompress, the exception of the decompression ends the dispatch: with
    scopes that neither swallow nor raise on exit it reaches the caller, after
    the application was opened once and every scope was exited. *)
Theorem broken_gzip_body_raises (self : FlaskLoopback) (url : URL)
    (request : Request) (w : @world Σ) (resp : AppResponse) (e : exn) :
  url_scheme url <> "" ->
  Forall (enters_with transparent request) (_request_context_handlers self) ->
  answers (_test_client self) resp ->
  declares_gzip resp ->
  gzip_decompress (app_data resp) = Raise e ->
  let n := length (_request_context_handlers self) in
  (handle_request responses gzip_decompress getfqdn cookiejar_extract
     self url request w).1 = Raise e
  /\ exists path kwargs,
       trace (handle_request responses gzip_decompress getfqdn cookiejar_extract
                self url request w).2
       = trace w ++ (Entered <$> seq 0 n) ++ [Opened path kwargs]
                 ++ (Exited <$> rev (seq 0 n)).
Proof.
  intros Hs Hh Ha Hg Hz n.
  destruct (handle_request_transparent responses gzip_decompress getfqdn
              cookiejar_extract self url request w Hs Hh)
    as (path & kwargs & w1 & w3 & _ & Hr & Ht).
  rewrite Hr. cbn [fst snd].
  destruct (open_and_translate_gzip_fails self url request path kwargs w1 resp e
              Ha Hg Hz) as [-> _].
  split; [done|]. by exists path, kwargs.
Qed.

Lemma open_and_translate_full (self : FlaskLoopback) (url : URL)
    (request : Request) (path : string) (kwargs : open_kwargs) (w : @world Σ)
    (resp : AppResponse) (data : bytes) :
  answers (_test_client self) resp ->
  (declares_gzip resp -> gzip_decompress (app_data resp) = Ok data) ->
  (~ declares_gzip resp -> app_data resp = data) ->
  let extract := cookiejar_extract (get_all (mkMockResponse resp)) request in
  let status := app_status_code resp in
  let hdrs := headers_update (app_headers resp) [] in
  exists σ',
    open_and_translate responses gzip_decompress cookiejar_extract
      self url request path kwargs w
    = (Ok {| response_url := Some (url_str url);
             response_status_code := Some status;
             response_reason := responses !! status;
             response_request := Some request;
             response__content := Some data;
             response_headers := hdrs;
             response_raw :=
               Some {| hr_status := Some status;
                       hr_reason := responses !! status;
                       hr_headers := hdrs;
                       hr_body := Some (new_IOReader data);
                       hr_decode_content := false;
                       hr_preload_content := false |};
             response_cookies := extract [] |},
       {| collab := σ'; trace := trace w ++ [Opened path kwargs];
          _hostname := _hostname w;
          session_cookies := extract (session_cookies w) |}).
Proof.
  intros Ha Hz Hp extract status hdrs.
  unfold open_and_translate, _extract_cookies. unfold_M. cbn [log modify].
  match goal with |- context [in_collab _ ?w1] =>
    destruct (Ha path kwargs (collab w1)) as [σ' Hm] end.
  rewrite (in_collab_eq _ _ _ _ Hm). cbn [bool_decide decide_rel].
  exists σ'. unfold declares_gzip in *.
  destruct (bool_decide_reflect
              (headers_get "content-encoding" (app_headers resp) = Some "gzip"))
    as [Hg|Hg]; cbn; [rewrite (Hz Hg) | rewrite (Hp Hg)]; reflexivity.
Qed.

Lemma handle_request_quiet_frame (self : FlaskLoopback) (url : URL)
    (request : Request) (w : @world Σ) :
  url_scheme url <> "" ->
  Forall (enters_with exits_quietly request) (_request_context_handlers self) ->
  exists path kwargs w1,
    session_cookies w1 = session_cookies w
    /\ forall returned w2,
         open_and_translate responses gzip_decompress cookiejar_extract
           self url request path kwargs w1 = (Ok returned, w2) ->
         exists w3,
           handle_request responses gzip_decompress getfqdn cookiejar_extract
             self url request w = (Ok (Some returned), w3)
           /\ session_cookies w3 = session_cookies w2.
Proof.
  intros Hs Hh.
  destruct (handle_request_unfold responses gzip_decompress getfqdn
              cookiejar_extract self url request w Hs) as (path & _ & ->).
  set (w0 := {| collab := collab w; trace := trace w;
                _hostname := Some (hostname_in getfqdn w);
                session_cookies := session_cookies w |}).
  destruct (enter_contexts_app exits_quietly request _ [] Hh 0 [] w0)
    as (stack & w1 & He & Hst & _); [constructor|].
  rewrite app_nil_r, enter_contexts_nil in He.
  pose proof (enter_contexts_frame request (_request_context_handlers self) 0 [] w0)
    as [_ Hf]. rewrite He in Hf. cbn [snd] in Hf.
  exists path, (kwargs_for getfqdn url request w), w1. split; [exact Hf|].
  intros returned w2 Hr.
  unfold with_ExitStack, with_body. rewrite He. cbn [fst snd]. rewrite Hr.
  match goal with |- context [run_exit_callbacks stack ?u w2] =>
    pose proof (run_exit_callbacks_frame stack u w2) as [_ Hf2] end.
  destruct (run_exit_callbacks_quiet stack Hst false w2) as (s' & w3 & Hq).
  rewrite Hq in Hf2 |- *. cbn [fst snd pending_raise] in *. by exists w3.
Qed.

Lemma handle_request_translated (self : FlaskLoopback) (url : URL)
    (request : Request) (w : @world Σ) (resp : AppResponse) (data : bytes) :
  url_scheme url <> "" ->
  Forall (enters_with exits_quietly request) (_request_context_handlers self) ->
  answers (_test_client self) resp ->
  (declares_gzip resp -> gzip_decompress (app_data resp) = Ok data) ->
  (~ declares_gzip resp -> app_data resp = data) ->
  let extract := cookiejar_extract (get_all (mkMockResponse resp)) request in
  let status := app_status_code resp in
  let hdrs := headers_update (app_headers resp) [] in
  exists w',
    handle_request responses gzip_decompress getfqdn cookiejar_extract
      self url request w
    = (Ok (Some {| response_url := Some (url_str url);
                   response_status_code := Some status;
                   response_reason := responses !! status;
                   response_request := Some request;
                   response__content := Some data;
                   response_headers := hdrs;
                   response_raw :=
                     Some {| hr_status := Some status;
                             hr_reason := responses !! status;
                             hr_headers := hdrs;
                             hr_body := Some (new_IOReader data);
                             hr_decode_content := false;
                             hr_preload_content := false |};
                   response_cookies := extract [] |}), w')
    /\ session_cookies w' = extract (session_cookies w).
Proof.
  intros Hs Hh Ha Hz Hp extract status hdrs.
  destruct (handle_request_quiet_frame self url request w Hs Hh)
    as (path & kwargs & w1 & Hc1 & Hq).
  destruct (open_and_translate_full self url request path kwargs w1 resp data
              Ha Hz Hp) as [σ' Ho].
  destruct (Hq _ _ Ho) as (w3 & Hr & Hc3).
  exists w3. split; [exact Hr|]. rewrite Hc3. cbn. by rewrite Hc1.
Qed.

(** X11.  The response a dispatch returns mirrors the application's: its
    status code is the application's, its reason is the table's phrase for
    that code ([None] for a code the table does not hold), its URL is the
    target URL and its request the original one; the raw [HTTPResponse] in it
    carries the same status, reason and headers, undecoded and not
    preloaded. *)
Theorem translated_response_mirrors_application (self : FlaskLoopback)
    (url : URL) (request : Request) (w : @world Σ) (resp : AppResponse)
    (data : bytes) :
  url_scheme url <> "" ->
  Forall (enters_with exits_quietly request) (_request_context_handlers self) ->
  answers (_test_client self) resp ->
  (declares_gzip resp -> gzip_decompress (app_data resp) = Ok data) ->
  (~ declares_gzip resp -> app_data resp = data) ->
  exists returned w' raw,
    handle_request responses gzip_decompress getfqdn cookiejar_extract
      self url request w = (Ok (Some returned), w')
    /\ response_status_code returned = Some (app_status_code resp)
    /\ response_reason returned = responses !! app_status_code resp
    /\ response_url returned = Some (url_str url)
    /\ response_request returned = Some request
    /\ response_raw returned = Some raw
    /\ hr_status raw = response_status_code returned
    /\ hr_reason raw = response_reason returned
    /\ hr_headers raw = response_headers returned
    /\ hr_decode_content raw = false
    /\ hr_preload_content raw = false.
Proof.
  intros Hs Hh Ha Hz Hp.
  destruct (handle_request_translated self url request w resp data Hs Hh Ha Hz Hp)
    as (w' & Hr & _).
  do 3 eexists. split; [exact Hr|]. cbn. by repeat split.
Qed.

(** X12.  Cookies are extracted twice from the same mocked response and
    request: once into the jar of the response returned, which starts empty,
    and once into the session's jar, on top of what it held. *)
Theorem cookies_reach_both_jars (self : FlaskLoopback) (url : URL)
    (request : Request) (w : @world Σ) (resp : AppResponse) (data : bytes) :
  url_scheme url <> "" ->
  Forall (enters_with exits_quietly request) (_request_context_handlers self) ->
  answers (_test_client self) resp ->
  (declares_gzip resp -> gzip_decompress (app_data resp) = Ok data) ->
  (~ declares_gzip resp -> app_data resp = data) ->
  let extract := cookiejar_extract (get_all (mkMockResponse resp)) request in
  exists returned w',
    handle_request responses gzip_decompress getfqdn cookiejar_extract
      self url request w = (Ok (Some returned), w')
    /\ response_cookies returned = extract []
    /\ session_cookies w' = extract (session_cookies w).
Proof.
  intros Hs Hh Ha Hz Hp extract.
  destruct (handle_request_translated self url request w resp data Hs Hh Ha Hz Hp)
    as (w' & Hr & Hc).
  do 2 eexists. split; [exact Hr|]. by split.
Qed.

(** X13.  The headers of the response returned hold each name once, whatever
    its case, and a lookup by name gives the last value the application sent
    under that name. *)
Theorem translated_headers_keep_last_value (self : FlaskLoopback) (url : URL)
    (request : Request) (w : @world Σ) (resp : AppResponse) (data : bytes) :
  url_scheme url <> "" ->
  Forall (enters_with exits_quietly request) (_request_context_handlers self) ->
  answers (_test_client self) resp ->
  (declares_gzip resp -> gzip_decompress (app_data resp) = Ok data) ->
  (~ declares_gzip resp -> app_data resp = data) ->
  exists returned w',
    handle_request responses gzip_decompress getfqdn cookiejar_extract
      self url request w = (Ok (Some returned), w')
    /\ NoDup (header_names (response_headers returned))
    /\ forall name,
         headers_get name (response_headers returned)
         = headers_get name (rev (app_headers resp)).
Proof.
  intros Hs Hh Ha Hz Hp.
  destruct (handle_request_translated self url request w resp data Hs Hh Ha Hz Hp)
    as (w' & Hr & _).
  do 2 eexists. split; [exact Hr|]. cbn [response_headers]. split.
  - apply header_names_update_NoDup. constructor.
  - intros name. rewrite headers_get_update.
    by destruct (headers_get name (rev (app_headers resp))).
Qed.

(** X14.  A dispatch that a handler short-circuits extracts no cookies and
    translates nothing: the session's jar is left as it was, and the response
    returned has no content, no raw reader, no headers and an empty jar. *)
Theorem short_circuit_skips_translation (self : FlaskLoopback) (url : URL)
    (request : Request) (w : @world Σ) (before after : list handler)
    (h : handler) (c : Z) :
  url_scheme url <> "" ->
  _request_context_handlers self = before ++ h :: after ->
  Forall (enters_with exits_quietly request) before ->
  short_circuits h request (CustomHTTPResponse_init responses request c) ->
  exists response w',
    handle_request responses gzip_decompress getfqdn cookiejar_extract
      self url request w = (Ok (Some response), w')
    /\ session_cookies w' = session_cookies w
    /\ response__content response = None
    /\ response_raw response = None
    /\ response_headers response = []
    /\ response_cookies response = [].
Proof.
  intros Hs Hhs Hb Hh.
  destruct (handle_request_unfold responses gzip_decompress getfqdn
              cookiejar_extract self url request w Hs) as (path & _ & ->).
  set (w0 := {| collab := collab w; trace := trace w;
                _hostname := Some (hostname_in getfqdn w);
                session_cookies := session_cookies w |}).
  destruct (enter_contexts_app exits_quietly request before (h :: after) Hb 0 [] w0)
    as (stack & w1 & He & Hst & _); [constructor|].
  pose proof (enter_contexts_frame request (before ++ h :: after) 0 [] w0)
    as [_ Hf].
  rewrite enter_contexts_cons in He.
  destruct (Hh (collab w1)) as [σ' Hm]. rewrite (in_collab_eq _ _ _ _ Hm) in He.
  rewrite He in Hf. cbn [snd session_cookies] in Hf.
  unfold with_ExitStack, with_body. rewrite Hhs, He. cbn [fst snd].
  match goal with |- context [run_exit_callbacks stack ?u ?w2] =>
    pose proof (run_exit_callbacks_frame stack u w2) as [_ Hf2];
    destruct (run_exit_callbacks_quiet stack Hst false w2) as (s' & w3 & Hr) end.
  rewrite Hr in Hf2 |- *. cbn [fst snd pending_raise session_cookies] in *.
  do 2 eexists. split; [reflexivity|]. split; [by rewrite Hf2, Hf|].
  by repeat split.
Qed.

End DispatchMore.

(** ** The mocked response handed to the cookie jar *)

Lemma str_lower_idem (s : string) : str_lower (str_lower s) = str_lower s.
Proof.
  induction s as [|c s IH]; [done|]. cbn [str_lower]. rewrite IH. f_equal.
  by destruct c as [[] [] [] [] [] [] [] []].
Qed.

Lemma headers_get_lower (name : string) (h : headers) :
  headers_get (str_lower name) h = headers_get name h.
Proof.
  induction h as [|[k v] h IH]; [done|]. cbn [headers_get].
  by rewrite str_lower_idem, IH.
Qed.

Lemma headers_get_same_case (name name' : string) (h : headers) :
  str_lower name' = str_lower name -> headers_get name' h = headers_get name h.
Proof.
  intros Hn. induction h as [|[k v] h IH]; [done|]. cbn [headers_get].
  by rewrite Hn, IH.
Qed.

(** X15.  The mocked response answers [get_all] with at most one value: the
    first one the application sent under that name, whatever the case of the
    name asked for, and [default] when there is none; it never answers with
    an empty list. *)
Theorem get_all_gives_first_value (self : _MockResponse) (name : string)
    (default : option (list string)) :
  length (getheaders self name) <= 1
  /\ get_all self name default
     = match headers_get name (app_headers (_resp self)) with
       | Some v => Some [v]
       | None => default
       end
  /\ (forall name', str_lower name' = str_lower name ->
        get_all self name' default = get_all self name default)
  /\ (default <> Some [] -> get_all self name default <> Some []).
Proof.
  assert (Hg : forall n, get_all self n default
                         = match headers_get n (app_headers (_resp self)) with
                           | Some v => Some [v]
                           | None => default
                           end).
  { intros n. unfold get_all, getheaders. rewrite headers_get_lower.
    by destruct (headers_get n _). }
  split; [|split; [|split]].
  - unfold getheaders. destruct (headers_get _ _); cbn; lia.
  - apply Hg.
  - intros name' Hn. by rewrite !Hg, (headers_get_same_case name name').
  - intros Hd. rewrite Hg. by destruct (headers_get name _).
Qed.

(** ** More on activation *)

Section ActivationMore.

Context {Σ : Type} `{D : Dispatch}.

(** X16.  An address that is not a pair is refused with [AssertionError]
    before anything is touched: [activate_address] and [deactivate_address]
    leave [dispatch] and the handler as they were, and [on] raises without
    running the body of its scope. *)
Theorem malformed_address_is_refused {A} (address : pyval) (ssl : bool)
    (scope_body : M (@process Σ D) A) (st : @process Σ D) :
  is_address address = false ->
  activate_address address ssl st = (Raise (AssertionError address_msg), st)
  /\ deactivate_address address st = (Raise (AssertionError address_msg), st)
  /\ on address ssl scope_body st = (Raise (AssertionError address_msg), st).
Proof.
  intros Ha. unfold on, activate_address, deactivate_address. unfold_M.
  by rewrite Ha.
Qed.

(** X17.  When [dispatch] refuses the registration, [activate_address] passes
    its exception on and does not record the address, and [on] raises without
    running the body of its scope or deactivating anything. *)
Theorem refused_registration_records_nothing {A} (address : pyval) (ssl : bool)
    (scope_body : M (@process Σ D) A) (st : @process Σ D) (e : exn)
    (reg' : registry) :
  is_address address = true ->
  register_loopback_handler address (self_ref st.2) ssl st.1 = (Raise e, reg') ->
  activate_address address ssl st = (Raise e, (reg', st.2))
  /\ on address ssl scope_body st = (Raise e, (reg', st.2)).
Proof.
  intros Ha Hr. unfold on. unfold bind at 1.
  rewrite activate_address_eq by done. by rewrite Hr.
Qed.

(** X18.  [deactivate_address] unregisters from [dispatch] before it looks at
    the handler's own set: for an address the handler does not hold, the call
    raises [KeyError] only after [dispatch] has let go of the address, and
    when [dispatch] itself raises, the handler's set is left as it was. *)
Theorem deactivate_unregisters_first (address : pyval) (st : @process Σ D) :
  is_address address = true ->
  (forall reg',
      unregister_loopback_handler address st.1 = (Ok tt, reg') ->
      address ∉ addresses st ->
      deactivate_address address st = (Raise (KeyError address), (reg', st.2)))
  /\ (forall e reg',
        unregister_loopback_handler address st.1 = (Raise e, reg') ->
        deactivate_address address st = (Raise e, (reg', st.2))).
Proof.
  intros Ha. split.
  - intros reg' Hu Hn. rewrite deactivate_address_eq, Hu by done.
    by rewrite decide_False.
  - intros e reg' Hu. by rewrite deactivate_address_eq, Hu.
Qed.

Context `{I : SetIter}.

Lemma deactivate_all_loop_ends (fuel : nat) :
  forall st : @process Σ D,
    size (addresses st) < fuel ->
    exists r st',
      deactivate_all_loop fuel st = Some (r, st')
      /\ addresses st' ⊆ addresses st
      /\ (r = Ok tt -> addresses st' = ∅).
Proof.
  induction fuel as [|fuel IH]; intros st Hsz; [lia|].
  cbn [deactivate_all_loop].
  destruct (set_first (addresses st)) as [a|] eqn:Hf.
  - apply set_first_elem in Hf.
    destruct (is_address a) eqn:Ha.
    + rewrite deactivate_address_eq by done.
      destruct (unregister_loopback_handler a st.1) as [[[]|e] reg'].
      * rewrite decide_True by done.
        match goal with |- context [deactivate_all_loop fuel ?st1] =>
          destruct (IH st1) as (r & st' & Hl & Hsub & Hemp) end.
        { cbn [snd set_registered_addresses _registered_addresses].
          assert (size (addresses st ∖ {[a]}) < size (addresses st)); [|lia].
          apply subset_size. by apply subset_difference_elem_of. }
        exists r, st'. split; [done|]. split; [|done].
        intros x Hx. apply Hsub in Hx. cbn in Hx.
        by apply elem_of_difference in Hx as [Hx _].
      * exists (Raise e), (reg', st.2). by repeat split.
    + exists (Raise (AssertionError address_msg)), st. split; [|by split].
      unfold deactivate_address. unfold_M. by rewrite Ha.
  - apply set_first_empty in Hf. exists (Ok tt), st. by repeat split.
Qed.

(** X19.  [deactivate_all] terminates, whatever [dispatch] does and in
    whatever order the set is iterated: the loop ends within one test more
    than there are addresses.  It never adds an address to the handler's set,
    and when it returns normally the set is empty. *)
Theorem deactivate_all_terminates (st : @process Σ D) :
  exists r st',
    deactivate_all st = Some (r, st')
    /\ addresses st' ⊆ addresses st
    /\ (r = Ok tt -> addresses st' = ∅).
Proof. apply deactivate_all_loop_ends. lia. Qed.

End ActivationMore.

(** X20.  Against the table modelled from the spec: the handler's own
    operations keep its set of addresses within the registrations that point
    back to it.  If every address it holds is registered to it, this still
    holds after [activate_address] and after [deactivate_address], on any
    address, well formed or not, whether the call returns or raises. *)
Theorem own_registrations_are_kept {Σ : Type} (policy : unregister_policy)
    (address : pyval) (ssl : bool) (st : @process Σ (spec_dispatch policy)) :
  owned st ->
  owned (activate_address address ssl st).2
  /\ owned (deactivate_address address st).2.
Proof.
  intros Ho. split.
  - destruct (is_address address) eqn:Ha.
    + rewrite spec_activate_eq by done. intros a Hin. cbn in Hin |- *.
      destruct (decide (a = address)) as [->|Hne].
      * exists ssl. unfold table. cbn. by rewrite lookup_insert_eq.
      * apply elem_of_union in Hin as [Hin|Hin];
          [by apply elem_of_singleton in Hin|].
        destruct (Ho a Hin) as [ssl' Hs]. exists ssl'.
        unfold table in *. cbn. by rewrite lookup_insert_ne.
    + unfold activate_address. unfold_M. by rewrite Ha.
  - destruct (is_address address) eqn:Ha.
    + rewrite deactivate_address_eq by done.
      cbn [unregister_loopback_handler spec_dispatch]. unfold spec_unregister.
      assert (Hdel : forall a, a ≠ address -> a ∈ addresses st ->
                exists ssl', delete address (table st) !! a
                             = Some (self_ref st.2, ssl')).
      { intros a Hne Hin. destruct (Ho a Hin) as [ssl' Hs]. exists ssl'.
        by rewrite lookup_delete_ne. }
      fold (table st).
      destruct (table st !! address) eqn:Ht; [|destruct policy].
      * destruct (decide (address ∈ addresses st)) as [Hin|Hout].
        -- intros a Hin'. cbn in Hin'.
           apply elem_of_difference in Hin' as [Hin' Hne].
           rewrite elem_of_singleton in Hne. by apply Hdel.
        -- intros a Hin'. cbn in Hin'.
           apply Hdel; [|done]. by intros ->.
      * done.
      * destruct (decide (address ∈ addresses st)) as [Hin|Hout].
        -- destruct (Ho _ Hin) as [ssl' Hs]. rewrite Hs in Ht. discriminate.
        -- intros a Hin'. cbn in Hin'.
           apply Hdel; [|done]. by intros ->.
    + unfold deactivate_address. unfold_M. by rewrite Ha.
Qed.

(** X21.  Against the table modelled from the spec: [deactivate_all] on a
    handler whose addresses are all registered returns normally and removes
    exactly the registrations of the addresses the handler held; every other
    registration in the table is left as it was. *)
Theorem deactivate_all_spares_other_registrations {Σ : Type} `{I : SetIter}
    (policy : unregister_policy) (st : @process Σ (spec_dispatch policy)) :
  well_registered st ->
  exists st',
    deactivate_all st = Some (Ok tt, st')
    /\ forall a,
         (a ∈ addresses st -> table st' !! a = None)
         /\ (a ∉ addresses st -> table st' !! a = table st !! a).
Proof.
  intros Hwr.
  destruct (deactivate_all_loop_spec policy (S (size (addresses st))) st)
    as (st' & Hd & _ & Ht); [lia|done|].
  exists st'. split; [exact Hd|]. intros a. rewrite Ht. split; intros Ha.
  - by rewrite decide_True.
  - by rewrite decide_False.
Qed.

(** ** The further properties at worked instances *)

Lemma consecutive_reads_witness :
  exists out2,
    (IOReader_read None
       (IOReader_read (Some 2%Z) (new_IOReader [Byte.x68; Byte.x69; Byte.x21])).2).1
    = Ok out2
    /\ [Byte.x68; Byte.x69] ++ out2 = [Byte.x68; Byte.x69; Byte.x21].
Proof.
  apply (consecutive_reads_lose_nothing (Some 2%Z)
           (new_IOReader [Byte.x68; Byte.x69; Byte.x21]) [Byte.x68; Byte.x69]);
    [reflexivity | reflexivity | discriminate].
Defined.

Lemma short_url_witness :
  application_path "http://example.com" = Ok "/example.com"
  /\ application_path "/example.com" = Ok "/example.com"
  /\ application_path "example.com" = Ok "/example.com".
Proof.
  apply (application_path_of_short_url "http:" "" "example.com"); reflexivity.
Defined.

Lemma empty_scheme_witness :
  demo_handle_request
    (demo_loopback (counting_client demo_plain_response) [plain_handler])
    {| url_str := "//example.com/x"; url_scheme := ""; url_netloc := "example.com" |}
    demo_request demo_world
  = (Raise (AssertionError ""), demo_world).
Proof.
  apply (empty_scheme_is_refused demo_responses demo_gzip_decompress "localhost"
           demo_cookiejar_extract). reflexivity.
Defined.

Lemma opened_with_witness :
  Opened "/api/widgets?x=1"
    {| kw_method := "GET"; kw_headers := [("Accept", "*/*")]; kw_data := None;
       kw_remote_addr := "localhost"; kw_base_url := "http://example.com" |}
    ∈ trace demo_world
  \/ (application_path (url_str demo_url) = Ok "/api/widgets?x=1"
      /\ {| kw_method := "GET"; kw_headers := [("Accept", "*/*")]; kw_data := None;
            kw_remote_addr := "localhost"; kw_base_url := "http://example.com" |}
         = {| kw_method := str_upper (req_method demo_request);
              kw_headers := req_headers demo_request;
              kw_data := request_data_of demo_request;
              kw_remote_addr := default "localhost" (_hostname demo_world);
              kw_base_url := url_scheme demo_url +:+ "://" +:+ url_netloc demo_url |}).
Proof.
  apply (application_is_opened_with demo_responses demo_gzip_decompress "localhost"
           demo_cookiejar_extract
           (demo_loopback (counting_client demo_plain_response) [plain_handler])
           demo_url demo_request demo_world).
  vm_compute. apply list_elem_of_further, list_elem_of_here.
Defined.

Lemma refusing_handler_witness :
  exists w',
    demo_handle_request
      (demo_loopback (counting_client demo_plain_response)
                     [plain_handler; denying_handler; plain_handler])
      demo_url demo_request demo_world
    = (Raise (OtherError "PermissionError"), w')
    /\ trace w' = [Entered 0; Exited 0].
Proof.
  apply (refusing_handler_ends_dispatch demo_responses demo_gzip_decompress
           "localhost" demo_cookiejar_extract
           (demo_loopback (counting_client demo_plain_response)
                          [plain_handler; denying_handler; plain_handler])
           demo_url demo_request demo_world
           [plain_handler] [plain_handler] denying_handler).
  - discriminate.
  - reflexivity.
  - repeat constructor; apply plain_handler_transparent.
  - intros σ. by eexists.
  - exact I.
Defined.

Lemma broken_gzip_witness :
  (demo_handle_request
     (demo_loopback (counting_client demo_broken_gzip_response) [plain_handler])
     demo_url demo_request demo_world).1
  = Raise (OtherError "BadGzipFile").
Proof.
  apply (broken_gzip_body_raises demo_responses demo_gzip_decompress "localhost"
           demo_cookiejar_extract
           (demo_loopback (counting_client demo_broken_gzip_response) [plain_handler])
           demo_url demo_request demo_world demo_broken_gzip_response).
  - discriminate.
  - repeat constructor; apply plain_handler_transparent.
  - intros path kwargs σ. by eexists.
  - reflexivity.
  - reflexivity.
Defined.

Lemma demo_cookie_client_answers :
  answers (counting_client demo_cookie_response) demo_cookie_response.
Proof. intros path kwargs σ. by eexists. Qed.

Lemma mirror_witness :
  exists returned w' raw,
    demo_handle_request
      (demo_loopback (counting_client demo_cookie_response) [plain_handler])
      demo_url demo_request demo_world
    = (Ok (Some returned), w')
    /\ response_status_code returned = Some 299%Z
    /\ response_reason returned = None
    /\ response_url returned = Some "http://example.com/api/widgets?x=1"
    /\ response_request returned = Some demo_request
    /\ response_raw returned = Some raw
    /\ hr_status raw = response_status_code returned
    /\ hr_reason raw = response_reason returned
    /\ hr_headers raw = response_headers returned
    /\ hr_decode_content raw = false
    /\ hr_preload_content raw = false.
Proof.
  apply (translated_response_mirrors_application demo_responses
           demo_gzip_decompress "localhost" demo_cookiejar_extract
           (demo_loopback (counting_client demo_cookie_response) [plain_handler])
           demo_url demo_request demo_world demo_cookie_response
           [Byte.x68; Byte.x69]).
  - discriminate.
  - repeat constructor; apply plain_handler_quiet.
  - apply demo_cookie_client_answers.
  - discriminate.
  - reflexivity.
Defined.

Lemma both_jars_witness :
  exists returned w',
    demo_handle_request
      (demo_loopback (counting_client demo_cookie_response) [plain_handler])
      demo_url demo_request demo_world
    = (Ok (Some returned), w')
    /\ response_cookies returned = [("a=1", "")]
    /\ session_cookies w' = [("a=1", "")].
Proof.
  apply (cookies_reach_both_jars demo_responses demo_gzip_decompress "localhost"
           demo_cookiejar_extract
           (demo_loopback (counting_client demo_cookie_response) [plain_handler])
           demo_url demo_request demo_world demo_cookie_response
           [Byte.x68; Byte.x69]).
  - discriminate.
  - repeat constructor; apply plain_handler_quiet.
  - apply demo_cookie_client_answers.
  - discriminate.
  - reflexivity.
Defined.

Lemma last_value_witness :
  exists returned w',
    demo_handle_request
      (demo_loopback (counting_client demo_cookie_response) [plain_handler])
      demo_url demo_request demo_world
    = (Ok (Some returned), w')
    /\ NoDup (header_names (response_headers returned))
    /\ forall name,
         headers_get name (response_headers returned)
         = headers_get name (rev (app_headers demo_cookie_response)).
Proof.
  apply (translated_headers_keep_last_value demo_responses demo_gzip_decompress
           "localhost" demo_cookiejar_extract
           (demo_loopback (counting_client demo_cookie_response) [plain_handler])
           demo_url demo_request demo_world demo_cookie_response
           [Byte.x68; Byte.x69]).
  - discriminate.
  - repeat constructor; apply plain_handler_quiet.
  - apply demo_cookie_client_answers.
  - discriminate.
  - reflexivity.
Defined.

Lemma short_circuit_untranslated_witness :
  exists response w',
    demo_handle_request
      (demo_loopback (counting_client demo_cookie_response)
                     [plain_handler; forbidding_handler])
      demo_url demo_request demo_world
    = (Ok (Some response), w')
    /\ session_cookies w' = []
    /\ response__content response = None
    /\ response_raw response = None
    /\ response_headers response = []
    /\ response_cookies response = [].
Proof.
  apply (short_circuit_skips_translation demo_responses demo_gzip_decompress
           "localhost" demo_cookiejar_extract
           (demo_loopback (counting_client demo_cookie_response)
                          [plain_handler; forbidding_handler])
           demo_url demo_request demo_world [plain_handler] [] forbidding_handler 403).
  - discriminate.
  - reflexivity.
  - repeat constructor; apply plain_handler_quiet.
  - intros σ. by eexists.
Defined.

Lemma malformed_address_witness :
  activate_address (VAtom (AStr "localhost")) false (demo_process NotRegisteredRaises)
  = (Raise (AssertionError address_msg), demo_process NotRegisteredRaises)
  /\ deactivate_address (VAtom (AStr "localhost")) (demo_process NotRegisteredRaises)
     = (Raise (AssertionError address_msg), demo_process NotRegisteredRaises)
  /\ on (VAtom (AStr "localhost")) false (ret tt) (demo_process NotRegisteredRaises)
     = (Raise (AssertionError address_msg), demo_process NotRegisteredRaises).
Proof.
  apply (malformed_address_is_refused (D := spec_dispatch NotRegisteredRaises)).
  reflexivity.
Defined.

Lemma refused_registration_witness :
  activate_address demo_address false demo_refused_process
  = (Raise (OtherError "RuntimeError"), demo_refused_process)
  /\ on demo_address false (ret tt) demo_refused_process
     = (Raise (OtherError "RuntimeError"), demo_refused_process).
Proof.
  apply (refused_registration_records_nothing (D := refusing_dispatch));
    reflexivity.
Defined.

Lemma foreign_deactivation_witness :
  deactivate_address demo_address (demo_foreign_process NotRegisteredRaises)
  = (Raise (KeyError demo_address), demo_process NotRegisteredRaises).
Proof.
  destruct (deactivate_unregisters_first (D := spec_dispatch NotRegisteredRaises)
              demo_address (demo_foreign_process NotRegisteredRaises) eq_refl)
    as [Hfirst _].
  apply (Hfirst ∅).
  - vm_compute. reflexivity.
  - apply not_elem_of_empty.
Defined.

Lemma owned_witness :
  demo_address ∈ addresses (demo_shared_process NotRegisteredRaises)
  /\ owned (demo_shared_process NotRegisteredRaises)
  /\ owned (activate_address demo_address2 true
              (demo_shared_process NotRegisteredRaises)).2
  /\ owned (deactivate_address demo_address
              (demo_shared_process NotRegisteredRaises)).2.
Proof.
  assert (Hheld : addresses (demo_shared_process NotRegisteredRaises)
                  = {[demo_address]}) by (vm_compute; reflexivity).
  assert (Howned : owned (demo_shared_process NotRegisteredRaises)).
  { intros a Hin. rewrite Hheld in Hin. apply elem_of_singleton in Hin as ->.
    exists false. vm_compute. reflexivity. }
  split; [rewrite Hheld; by apply elem_of_singleton|].
  split; [exact Howned|].
  split.
  - exact (proj1 (own_registrations_are_kept NotRegisteredRaises
                    demo_address2 true _ Howned)).
  - exact (proj2 (own_registrations_are_kept NotRegisteredRaises
                    demo_address false _ Howned)).
Defined.

Lemma spared_registrations_witness :
  demo_address ∈ addresses (demo_shared_process NotRegisteredRaises)
  /\ well_registered (demo_shared_process NotRegisteredRaises)
  /\ exists st',
       deactivate_all (I := elements_iter) (demo_shared_process NotRegisteredRaises)
       = Some (Ok tt, st')
       /\ table st' !! demo_address = None
       /\ table st' !! demo_address2 = Some (2, true).
Proof.
  assert (Hheld : addresses (demo_shared_process NotRegisteredRaises)
                  = {[demo_address]}) by (vm_compute; reflexivity).
  assert (Hin : demo_address ∈ addresses (demo_shared_process NotRegisteredRaises))
    by (rewrite Hheld; by apply elem_of_singleton).
  assert (Hwell : well_registered (demo_shared_process NotRegisteredRaises)).
  { intros a Ha. rewrite Hheld in Ha. apply elem_of_singleton in Ha as ->.
    split; [reflexivity|]. exists (1, false). vm_compute. reflexivity. }
  split; [exact Hin|]. split; [exact Hwell|].
  destruct (deactivate_all_spares_other_registrations (I := elements_iter)
              NotRegisteredRaises (demo_shared_process NotRegisteredRaises) Hwell)
    as (st' & Hrun & Hall).
  exists st'. split; [exact Hrun|]. split.
  - by apply Hall.
  - transitivity (table (demo_shared_process NotRegisteredRaises) !! demo_address2).
    + apply Hall. rewrite Hheld. intros Hbad.
      apply elem_of_singleton in Hbad. discriminate.
    + vm_compute. reflexivity.
Defined.
